(** * browse: a directory-listing file server (main.go)

    A shallow embedding of [main.go] and of the parts of Go's standard
    library its behaviour depends on ([path/filepath], [strings], [fmt],
    [net/http]'s response writer), followed by the properties of the
    program's specification.

    Go strings are byte sequences; they are modelled by [string], whose
    characters are the 8-bit [ascii]. *)

From Stdlib Require Import String Ascii List Bool Arith NArith Lia Permutation.
Import ListNotations.

Local Open Scope list_scope.
Local Open Scope string_scope.

Set Implicit Arguments.

(* ================================================================== *)
(** * Go's [strings] package *)

Module strings.

(** [strings.HasPrefix(s, prefix)] *)
Fixpoint HasPrefix (s prefix : string) : bool :=
  match prefix, s with
  | EmptyString, _ => true
  | String _ _, EmptyString => false
  | String p prefix', String c s' => Ascii.eqb c p && HasPrefix s' prefix'
  end.

(** [s[n:]] for [n <= len(s)] *)
Fixpoint drop (n : nat) (s : string) : string :=
  match n, s with
  | O, _ => s
  | S _, EmptyString => EmptyString
  | S n', String _ s' => drop n' s'
  end.

(** [strings.TrimPrefix(s, prefix)]: [s] without the leading [prefix],
    or [s] itself when it does not start with [prefix]. *)
Definition TrimPrefix (s prefix : string) : string :=
  if HasPrefix s prefix then drop (String.length prefix) s else s.

(** [strings.Contains(s, string(c))] for a single byte [c] *)
Fixpoint ContainsByte (s : string) (c : ascii) : bool :=
  match s with
  | EmptyString => false
  | String d s' => Ascii.eqb d c || ContainsByte s' c
  end.

End strings.

(* ================================================================== *)
(** * Go's [path/filepath] package (Unix) *)

Module filepath.

Definition Separator : ascii := "/"%char.

Definition IsPathSeparator (c : ascii) : bool := Ascii.eqb c Separator.

(** The path elements of [path]: the maximal runs of bytes between
    separators (empty runs included), in order. *)
Fixpoint elements (path : string) : list string :=
  match path with
  | EmptyString => [EmptyString]
  | String c path' =>
      if IsPathSeparator c then EmptyString :: elements path'
      else match elements path' with
           | e :: es => String c e :: es
           | [] => [String c EmptyString]
           end
  end.

(** The output buffer of [Clean], kept by elements: [written] holds
    the elements appended so far, the last one first (one separator
    stands between two neighbours); [dotdot] counts the elements at
    the bottom of the buffer that a [..] may not remove (Go keeps the
    byte index of that point). *)
Record lazybuf := { written : list string; dotdot : nat }.

(** One round of the loop of [Clean], which takes the next element of
    the path:
    - an empty element (a separator follows a separator) is skipped;
    - a [.] element is skipped;
    - a [..] element removes the last element written when there is
      one above [dotdot]; otherwise, when the path is not rooted, [..]
      is appended and [dotdot] moves past it; in a rooted path it is
      dropped;
    - any other element is appended. *)
Definition cleanElem (rooted : bool) (out : lazybuf) (e : string) : lazybuf :=
  if String.eqb e "" then out
  else if String.eqb e "." then out
  else if String.eqb e ".." then
    if Nat.ltb (dotdot out) (List.length (written out)) then
      {| written := tl (written out); dotdot := dotdot out |}
    else if negb rooted then
      {| written := ".." :: written out;
         dotdot := S (List.length (written out)) |}
    else out
  else {| written := e :: written out; dotdot := dotdot out |}.

Definition rooted (path : string) : bool :=
  match path with
  | String c _ => IsPathSeparator c
  | EmptyString => false
  end.

Definition cleanLoop (path : string) : lazybuf :=
  fold_left (cleanElem (rooted path)) (elements path)
            {| written := []; dotdot := 0 |}.

(** [filepath.Clean(path)]: the shortest path name equivalent to
    [path] by purely lexical processing.  The empty string becomes
    ["."]; a rooted path keeps its leading separator.  The loop is
    taken here element by element; [bytewise.Clean] below is the loop
    of the Go source, byte by byte, and [Clean_bytewise] proves that
    the two return the same path. *)
Definition Clean (path : string) : string :=
  match path with
  | EmptyString => "."
  | _ =>
      let out := cleanLoop path in
      let body := String.concat "/" (rev (written out)) in
      if rooted path then "/" ++ body
      else match written out with
           | [] => "."
           | _ => body
           end
  end.

(** [filepath.IsAbs(path)] *)
Definition IsAbs (path : string) : bool := strings.HasPrefix path "/".

(** [filepath.Join(a, b)]: empty elements are ignored, the rest is
    joined by separators and cleaned; all elements empty gives [""]. *)
Definition Join (a b : string) : string :=
  match a, b with
  | EmptyString, EmptyString => ""
  | EmptyString, _ => Clean b
  | _, _ => Clean (a ++ "/" ++ b)
  end.

(** [filepath.Abs(path)], given the result [wd] of [os.Getwd()]
    ([None] when that call fails).  Returns the path and whether an
    error is returned with it. *)
Definition Abs (wd : option string) (path : string) : string * bool :=
  if IsAbs path then (Clean path, false)
  else match wd with
       | None => ("", true)
       | Some wd => (Join wd path, false)
       end.

End filepath.

(* ================================================================== *)
(** * [filepath.Clean], the loop of the Go source *)

(** Go's [Clean] reads the path byte by byte ([r] is the next byte to
    read) and writes to a buffer ([w] is the next byte to write);
    [dotdot] is the index in the buffer where a [..] must stop.  Here
    [p] is the part of the path from [r] on, and [out] holds the
    [w] bytes written, the last one first. *)
Module bytewise.

(** [acc] with the bytes of [s] put in front of it, the last one
    first. *)
Fixpoint pushAll (s acc : string) : string :=
  match s with
  | EmptyString => acc
  | String c s' => pushAll s' (String c acc)
  end.

(** [r == n || os.IsPathSeparator(path[r])] *)
Definition endOfElement (p : string) : bool :=
  match p with
  | EmptyString => true
  | String c _ => filepath.IsPathSeparator c
  end.

(** [for out.w > dotdot && !os.IsPathSeparator(out.index(out.w)) { out.w-- }],
    where [popped] is the byte at [out.w]. *)
Fixpoint backtrackLoop (popped : ascii) (out : string) (dotdot : nat) : string :=
  match out with
  | String c out' =>
      if Nat.ltb dotdot (String.length out) && negb (filepath.IsPathSeparator popped)
      then backtrackLoop c out' dotdot
      else out
  | EmptyString => out
  end.

(** [out.w--] and the loop after it. *)
Definition backtrack (out : string) (dotdot : nat) : string :=
  match out with
  | String c out' => backtrackLoop c out' dotdot
  | EmptyString => out
  end.

(** [for ; r < n && !os.IsPathSeparator(path[r]); r++ { out.append(path[r]) }] *)
Fixpoint copyElement (p out : string) : string * string :=
  match p with
  | String c p' =>
      if filepath.IsPathSeparator c then (out, p)
      else copyElement p' (String c out)
  | EmptyString => (out, p)
  end.

(** [for r < n { switch { ... } }]; every round reads at least one
    byte, so the length of the path is fuel enough. *)
Fixpoint loop (fuel : nat) (rooted : bool) (p out : string) (dotdot : nat) : string :=
  match fuel, p with
  | O, _ => out
  | _, EmptyString => out
  | S fuel', String c p1 =>
      if filepath.IsPathSeparator c then
        (* empty path element *)
        loop fuel' rooted p1 out dotdot
      else if Ascii.eqb c "." && endOfElement p1 then
        (* . element *)
        loop fuel' rooted p1 out dotdot
      else if Ascii.eqb c "." && match p1 with
                                 | String d p2 => Ascii.eqb d "." && endOfElement p2
                                 | EmptyString => false
                                 end then
        (* .. element: remove to last separator *)
        let p2 := strings.drop 1 p1 in
        if Nat.ltb dotdot (String.length out) then
          loop fuel' rooted p2 (backtrack out dotdot) dotdot
        else if negb rooted then
          let out := if Nat.ltb 0 (String.length out) then String "/" out else out in
          let out := String "." (String "." out) in
          loop fuel' rooted p2 out (String.length out)
        else loop fuel' rooted p2 out dotdot
      else
        (* real path element: add slash if needed, copy element *)
        let out :=
          if rooted && negb (Nat.eqb (String.length out) 1)
             || negb rooted && negb (Nat.eqb (String.length out) 0)
          then String "/" out else out in
        let '(out, p') := copyElement p out in
        loop fuel' rooted p' out dotdot
  end.

(** [func Clean(path string) string] *)
Definition Clean (path : string) : string :=
  match path with
  | EmptyString => "."
  | String c p1 =>
      let rooted := filepath.IsPathSeparator c in
      let out :=
        if rooted then loop (String.length path) rooted p1 "/" 1
        else loop (String.length path) rooted path "" 0 in
      match out with
      | EmptyString => "."
      | _ => pushAll out ""
      end
  end.

End bytewise.

(* ================================================================== *)
(** * Go's [fmt] package: [Sprintf] called with a format and no operand *)

Module fmt.

Definition isFlag (c : ascii) : bool :=
  strings.ContainsByte "#0+- " c.

Definition isDigit (c : ascii) : bool :=
  (48 <=? nat_of_ascii c)%nat && (nat_of_ascii c <=? 57)%nat.

Fixpoint skipFlags (s : string) : string :=
  match s with
  | String c s' => if isFlag c then skipFlags s' else s
  | EmptyString => s
  end.

(** [tooLarge(x)]: the parsed number is larger than 1e6 *)
Definition tooLarge (x : N) : bool := (1000000 <? x)%N.

(** [parsenum]: reads a decimal number at the head of [s].  Returns
    whether a number was read and what follows it, or [None] when the
    number overflows (the caller then skips to its [end]). *)
Fixpoint parsenum (s : string) (num : N) (isnum : bool)
  : option (bool * string) :=
  match s with
  | String c s' =>
      if isDigit c then
        if tooLarge num then None
        else parsenum s' (num * 10 + N.of_nat (nat_of_ascii c - 48))%N true
      else Some (isnum, s)
  | EmptyString => Some (isnum, s)
  end.

(** Splits [s] at its first ["]"]: the bytes before it and the bytes
    after it. *)
Fixpoint untilBracket (s : string) : option (string * string) :=
  match s with
  | EmptyString => None
  | String c s' =>
      if Ascii.eqb c "]" then Some (EmptyString, s')
      else match untilBracket s' with
           | Some (a, b) => Some (String c a, b)
           | None => None
           end
  end.

(** [parseArgNumber(format)] for a [format] that starts with ["["]
    ([s] is what follows the bracket): the rest of the format after
    the index and whether the index is well formed. *)
Definition parseArgNumber (s : string) : string * bool :=
  if (String.length s <? 2)%nat then (s, false)
  else match untilBracket s with
       | None => (s, false)
       | Some (inner, rest) =>
           match parsenum inner 0%N false with
           | Some (true, EmptyString) => (rest, true)
           | _ => (rest, false)
           end
       end.

(** [s] without its first byte, when that byte is [c]. *)
Definition after (c : ascii) (s : string) : option string :=
  match s with
  | String d s' => if Ascii.eqb d c then Some s' else None
  | EmptyString => None
  end.

(** [argNumber]: an explicit argument index [[n]].  With no operand
    every index is out of range, so finding one clears [goodArgNum].
    Returns the rest of the format, [found] and [goodArgNum]. *)
Definition argNumber (s : string) (good : bool) : string * bool * bool :=
  match after "[" s with
  | Some s' => let '(rest, ok) := parseArgNumber s' in (rest, ok, false)
  | None => (s, false, good)
  end.

(** [utf8.DecodeRuneInString] followed by [WriteRune]: the bytes
    written for the verb at the head of [s] and the rest of [s].  A
    well-formed encoding is written back as it is; any other byte is
    taken alone and written as U+FFFD. *)
Definition inRange (lo hi : nat) (c : ascii) : bool :=
  (lo <=? nat_of_ascii c)%nat && (nat_of_ascii c <=? hi)%nat.

Definition runeError : string :=
  String (ascii_of_nat 239) (String (ascii_of_nat 191)
    (String (ascii_of_nat 189) EmptyString)).

Definition decodeVerb (c : ascii) (s : string) : string * string :=
  let bad := (runeError, s) in
  let cont := inRange 128 191 in
  if inRange 0 127 c then (String c EmptyString, s)
  else if inRange 194 223 c then
    match s with
    | String c1 s1 =>
        if cont c1 then (String c (String c1 EmptyString), s1) else bad
    | _ => bad
    end
  else if inRange 224 239 c then
    match s with
    | String c1 (String c2 s2) =>
        let lo := if inRange 224 224 c then 160 else 128 in
        let hi := if inRange 237 237 c then 159 else 191 in
        if inRange lo hi c1 && cont c2
        then (String c (String c1 (String c2 EmptyString)), s2) else bad
    | _ => bad
    end
  else if inRange 240 244 c then
    match s with
    | String c1 (String c2 (String c3 s3)) =>
        let lo := if inRange 240 240 c then 144 else 128 in
        let hi := if inRange 244 244 c then 143 else 191 in
        if inRange lo hi c1 && cont c2 && cont c3
        then (String c (String c1 (String c2 (String c3 EmptyString))), s3)
        else bad
    | _ => bad
    end
  else bad.

(** "Do we have width?": a [*] asks for an operand that is not
    there; a number is read and dropped.  Returns what is written,
    the rest of the format, [afterIndex] and [goodArgNum]. *)
Definition width (s : string) (afterIndex good : bool)
  : string * string * bool * bool :=
  match after "*" s with
  | Some s' => ("%!(BADWIDTH)", s', false, good)
  | None =>
      match parsenum s 0%N false with
      | Some (widPresent, s') =>
          ("", s', afterIndex, good && negb (afterIndex && widPresent))
      | None => ("", "", afterIndex, good)
      end
  end.

(** "Do we have precision?" *)
Definition precision (s : string) (afterIndex good : bool)
  : string * string * bool * bool :=
  match after "." s with
  | Some s' =>
      let good := good && negb afterIndex in
      let '(s', afterIndex, good) := argNumber s' good in
      match after "*" s' with
      | Some s'' => ("%!(BADPREC)", s'', false, good)
      | None =>
          match parsenum s' 0%N false with
          | Some (_, s'') => ("", s'', afterIndex, good)
          | None => ("", "", afterIndex, good)
          end
      end
  | None => ("", s, afterIndex, good)
  end.

(** The verb itself: [s] is the format from the verb on, [out] what
    width and precision have written. *)
Definition verb (out : string) (s : string) (good : bool) : string * string :=
  match s with
  | EmptyString => (out ++ "%!(NOVERB)", "")
  | String c s' =>
      let '(v, rest) := decodeVerb c s' in
      if String.eqb v "%" then (out ++ "%", rest)
      else if negb good then (out ++ "%!" ++ v ++ "(BADINDEX)", rest)
      else (out ++ "%!" ++ v ++ "(MISSING)", rest)
  end.

(** One verb of the format: [s] is what follows the ["%"].  Returns
    what is written and the rest of the format. *)
Definition doVerb (s : string) : string * string :=
  let s := skipFlags s in
  let '(s, afterIndex, good) := argNumber s true in
  let '(w1, s, afterIndex, good) := width s afterIndex good in
  let '(w2, s, afterIndex, good) := precision s afterIndex good in
  let '(s, afterIndex, good) :=
    if afterIndex then (s, afterIndex, good) else argNumber s good in
  verb (w1 ++ w2) s good.

(** [doPrintf(format, nil)]: text is copied up to the next ["%"], and
    the verb after it is processed.  Each round takes at least one
    byte of the format, so its length is fuel enough. *)
Fixpoint doPrintf (fuel : nat) (format : string) : string :=
  match fuel, format with
  | O, _ => EmptyString
  | _, EmptyString => EmptyString
  | S fuel', String c format' =>
      if Ascii.eqb c "%" then
        let '(out, rest) := doVerb format' in out ++ doPrintf fuel' rest
      else String c (doPrintf fuel' format')
  end.

(** [fmt.Sprintf(format)] *)
Definition Sprintf (format : string) : string :=
  doPrintf (String.length format) format.

(** [fmt.Sprintf("%s/%s", a, b)] for two string operands *)
Definition Sprintf_s_slash_s (a b : string) : string := a ++ "/" ++ b.

End fmt.

(* ================================================================== *)
(** * main.go: the pure helpers *)

(** [os.FileInfo], as far as the program reads it. *)
Record FileInfo := {
  Name : string;
  Size : N;
  IsDir : bool
}.

Section PureHelpers.

(** The working directory [os.Getwd()] answers with when [filepath.Abs]
    asks for it; [None] when the call fails. *)
Variable wd : option string.

(** [func abs(dir, root string) string] *)
Definition abs (dir root : string) : string :=
  let dir := fst (filepath.Abs wd dir) in
  let root := fst (filepath.Abs wd root) in
  let path := strings.TrimPrefix dir root in
  fmt.Sprintf (filepath.Clean ("/" ++ path)).

End PureHelpers.

(** [func filter(files []os.FileInfo, f func(os.FileInfo) bool)]: the
    loop appends to [vsf] every [v] that [f] accepts. *)
Definition filter (files : list FileInfo) (f : FileInfo -> bool) : list FileInfo :=
  fold_left (fun vsf v => if f v then (vsf ++ [v])%list else vsf) files [].

(** [func filterFiles(files []os.FileInfo)]: hidden files are left out. *)
Definition filterFiles (files : list FileInfo) : list FileInfo :=
  filter files (fun fi => negb (strings.HasPrefix (Name fi) ".")).

(** [func splitFiles(vs []os.FileInfo, f func(os.FileInfo) bool)] *)
Definition splitFiles (vs : list FileInfo) (f : FileInfo -> bool)
  : list FileInfo * list FileInfo :=
  fold_left (fun '(a, b) v => if f v then ((a ++ [v])%list, b)
                               else (a, (b ++ [v])%list))
            vs ([], []).

(** [type Listing struct] *)
Module Listing.
Record t := {
  Root : string;
  Dir : string;
  Directories : list FileInfo;
  Files : list FileInfo
}.
End Listing.

(* ================================================================== *)
(** * The world the handlers run in *)

(** Errors of the file-system calls. *)
Inductive Errno := ENOENT | EACCES | ENOTDIR | ELOOP | ENAMETOOLONG | EIO.

(** [os.IsNotExist(err)] *)
Definition os_IsNotExist (err : Errno) : bool :=
  match err with
  | ENOENT => true
  | _ => false
  end.

(** The text nodes of [Template], in the order of the template source:
    up to the title, from the title to the assignment of [$dir], from
    there to the first [range], the three text nodes of a list item
    (up to the [href] value, between it and the link text, after the
    link text), the text between the two [range]s and the rest of the
    page. *)
Inductive TextNode :=
  Head | Body | ListOpen | ItemOpen | ItemMid | ItemClose | Between | Tail.

(** What is written to a response: a text node of the template, the
    value of one of its actions (the title, an [href] value, a link
    text; html/template escapes each for its place when it writes it),
    or the plain text written by [http.Error]. *)
Inductive Piece :=
| Text (n : TextNode)
| TitleVal (v : string)
| HrefVal (v : string)
| NameVal (v : string)
| Plain (v : string).

(** [http.ResponseWriter]: the status sent with the header ([None]
    until the header is written), the body written so far and the
    number of calls of [Write]. *)
Record ResponseWriter := {
  status : option nat;
  body : list Piece;
  writes : nat
}.

(** [*http.Request], as far as the program reads it. *)
Record Request := {
  URL_Path : string;
  RemoteAddr : string
}.

(** The calls that leave the handler: to the file system, to the
    template and to the file server. *)
Inductive Call :=
| Stat (path : string)
| ReadDir (path : string)
| ExecuteTemplate (data : Listing.t)
| FileServer (root : string) (r : Request).

(** The package-level variables. *)
Record Vars := { Root : string }.

Record State := {
  vars : Vars;              (* package-level variables *)
  stdlog : list string;     (* lines printed by package log *)
  calls : list Call;        (* calls made so far, oldest first *)
  w : ResponseWriter        (* the response of the current request *)
}.

(** What the surroundings answer while one request is served.  The file
    system may change between two calls: [stat] and [readdir] answer by
    the number of calls made before. *)
Record Env := {
  getwd : option string;
  stat : nat -> string -> Errno + FileInfo;
  readdir : nat -> string -> Errno + list FileInfo;
  writeOK : nat -> bool;
  fileServer : string -> Request -> ResponseWriter -> ResponseWriter
}.

(** A computation returns a value or panics, in a new state. *)
Inductive Outcome (A : Type) :=
| Return (a : A) (st : State)
| Panic (msg : string) (st : State).
Arguments Return {A} a st.
Arguments Panic {A} msg st.

Definition M (A : Type) : Type := State -> Outcome A.

Definition ret {A} (a : A) : M A := fun st => Return a st.

Definition bind {A B} (m : M A) (k : A -> M B) : M B :=
  fun st => match m st with
            | Return a st' => k a st'
            | Panic msg st' => Panic msg st'
            end.

Definition panic {A} (msg : string) : M A := fun st => Panic msg st.

Notation "x <- m ;; k" := (bind m (fun x => k))
  (at level 61, m at next level, right associativity).
Notation "' pat <- m ;; k" :=
  (bind m (fun x => match x with pat => k end))
  (at level 61, pat pattern, m at next level, right associativity).
Notation "m ;;; k" := (bind m (fun _ => k))
  (at level 61, right associativity).

Definition final {A} (o : Outcome A) : State :=
  match o with
  | Return _ st => st
  | Panic _ st => st
  end.

Definition panicked {A} (o : Outcome A) : bool :=
  match o with
  | Return _ _ => false
  | Panic _ _ => true
  end.

Definition call (c : Call) : M unit :=
  fun st => Return tt {| vars := vars st; stdlog := stdlog st;
                         calls := (calls st ++ [c])%list; w := w st |}.

Definition clock : M nat := fun st => Return (List.length (calls st)) st.

Definition getRoot : M string := fun st => Return (Root (vars st)) st.

Definition withWriter (f : ResponseWriter -> ResponseWriter) : M unit :=
  fun st => Return tt {| vars := vars st; stdlog := stdlog st;
                         calls := calls st; w := f (w st) |}.

(** [log.Println(line)] *)
Definition log_Println (line : string) : M unit :=
  fun st => Return tt {| vars := vars st;
                         stdlog := (stdlog st ++ [line])%list;
                         calls := calls st; w := w st |}.

(** [os.Stat(path)]: a [FileInfo] and a nil error, or a nil [FileInfo]
    and the error. *)
Definition os_Stat (e : Env) (path : string)
  : M (option FileInfo * option Errno) :=
  n <- clock ;;
  call (Stat path) ;;;
  match stat e n path with
  | inl err => ret (None, Some err)
  | inr info => ret (Some info, None)
  end.

(** [ioutil.ReadDir(path)] *)
Definition ioutil_ReadDir (e : Env) (path : string)
  : M (list FileInfo * option Errno) :=
  n <- clock ;;
  call (ReadDir path) ;;;
  match readdir e n path with
  | inl err => ret ([], Some err)
  | inr contents => ret (contents, None)
  end.

(** [info.IsDir()] on the interface value that [os.Stat] returned:
    calling a method of a nil interface value panics. *)
Definition info_IsDir (info : option FileInfo) : M bool :=
  match info with
  | Some fi => ret (IsDir fi)
  | None => panic "runtime error: invalid memory address or nil pointer dereference"
  end.

(** [w.WriteHeader(code)]: the header is sent once; later calls change
    nothing. *)
Definition WriteHeader (code : nat) : M unit :=
  withWriter (fun w => {| status := match status w with
                                    | None => Some code
                                    | Some c => Some c
                                    end;
                          body := body w; writes := writes w |}).

(** [w.Write(p)]: sends the header with status 200 if it was not sent
    yet, then writes [p], or fails.  Returns whether it failed. *)
Definition Write (e : Env) (p : Piece) : M bool :=
  WriteHeader 200 ;;;
  fun st =>
    let ok := writeOK e (writes (w st)) in
    Return (negb ok)
           {| vars := vars st; stdlog := stdlog st; calls := calls st;
              w := {| status := status (w st);
                      body := if ok then (body (w st) ++ [p])%list
                              else body (w st);
                      writes := S (writes (w st)) |} |}.

(** [http.StatusText(code)] *)
Definition http_StatusText (code : nat) : string :=
  if Nat.eqb code 500 then "Internal Server Error"
  else if Nat.eqb code 404 then "Not Found"
  else if Nat.eqb code 200 then "OK"
  else "".

(** [http.Error(w, error, code)] *)
Definition http_Error (e : Env) (error : string) (code : nat) : M unit :=
  WriteHeader code ;;;
  _ <- Write e (Plain (error ++ String (ascii_of_nat 10) "")) ;;
  ret tt.

(** [http.NotFound(w, r)] *)
Definition http_NotFound (e : Env) : M unit :=
  http_Error e "404 page not found" 404.

(* ================================================================== *)
(** * main.go: the template and the handlers *)

(** The value of the [href] action of a list item,
    [{{printf "%s/%s" $dir .Name | clean}}]. *)
Definition href (dir : string) (fi : FileInfo) : string :=
  filepath.Clean (fmt.Sprintf_s_slash_s dir (Name fi)).

(** What executing [Template] on [data] writes, piece by piece: the
    title [{{ abs .Dir .Root }}], then with [$dir := abs .Dir .Root] one
    list item for each of [.Directories] and then for each of [.Files]. *)
Definition templateOutput (wd : option string) (data : Listing.t) : list Piece :=
  let dir := abs wd (Listing.Dir data) (Listing.Root data) in
  let item := fun fi =>
    [Text ItemOpen; HrefVal (href dir fi); Text ItemMid;
     NameVal (Name fi); Text ItemClose] in
  ([Text Head; TitleVal (abs wd (Listing.Dir data) (Listing.Root data));
    Text Body; Text ListOpen]
   ++ flat_map item (Listing.Directories data)
   ++ [Text Between]
   ++ flat_map item (Listing.Files data)
   ++ [Text Tail])%list.

Arguments templateOutput : simpl never.

(** The template writes its pieces to the response one after the other
    and stops with an error at the first write that fails. *)
Fixpoint writeAll (e : Env) (ps : list Piece) : M (option string) :=
  match ps with
  | [] => ret None
  | p :: ps' =>
      failed <- Write e p ;;
      if failed then ret (Some "write error") else writeAll e ps'
  end.

(** [Template.ExecuteTemplate(w, name, data)]; [Template] defines the
    one name ["index.html"]. *)
Definition Template_ExecuteTemplate (e : Env) (name : string) (data : Listing.t)
  : M (option string) :=
  if String.eqb name "index.html" then
    call (ExecuteTemplate data) ;;;
    writeAll e (templateOutput (getwd e) data)
  else ret (Some "html/template: template is undefined").

Definition Handler : Type := Env -> Request -> M unit.

(** [func handleDirectory(w http.ResponseWriter, r *http.Request, path string)] *)
Definition handleDirectory (e : Env) (r : Request) (path : string) : M unit :=
  '(contents, err) <- ioutil_ReadDir e path ;;
  match err with
  | Some _ => http_Error e (http_StatusText 500) 500
  | None =>
      let contents := filterFiles contents in
      let '(directories, files) := splitFiles contents (fun fi => IsDir fi) in
      root <- getRoot ;;
      let list := {| Listing.Root := root;
                     Listing.Dir := path;
                     Listing.Directories := directories;
                     Listing.Files := files |} in
      err <- Template_ExecuteTemplate e "index.html" list ;;
      match err with
      | Some msg =>
          log_Println msg ;;;
          http_Error e (http_StatusText 500) 500
      | None => ret tt
      end
  end.

(** [func handleServe(next http.Handler) http.Handler] *)
Definition handleServe (next : Handler) : Handler := fun e r =>
  let path := filepath.Clean (URL_Path r) in
  '(info, err) <- os_Stat e path ;;
  if match err with
     | Some err => os_IsNotExist err
     | None => false
     end
  then http_NotFound e
  else
    isDir <- info_IsDir info ;;
    if isDir then
      ioutil_ReadDir e path ;;;
      handleDirectory e r path
    else next e r.

(** [func loggingMiddleware(next http.Handler) http.Handler] *)
Definition loggingMiddleware (next : Handler) : Handler := fun e r =>
  root <- getRoot ;;
  log_Println (abs (getwd e) (filepath.Clean (URL_Path r)) root
               ++ " " ++ RemoteAddr r) ;;;
  next e r.

(** [http.StripPrefix(prefix, h)], on the [Path] of the URL (its
    [RawPath] is left out of [Request]). *)
Definition http_StripPrefix (prefix : string) (h : Handler) : Handler :=
  match prefix with
  | EmptyString => h
  | _ => fun e r =>
      let p := strings.TrimPrefix (URL_Path r) prefix in
      if (String.length p <? String.length (URL_Path r))%nat
      then h e {| URL_Path := p; RemoteAddr := RemoteAddr r |}
      else http_NotFound e
  end.

(** [http.FileServer(http.Dir(root))]: the file server is outside the
    program; its call is recorded and the response is what the
    surroundings make of it. *)
Definition http_FileServer (root : string) : Handler := fun e r =>
  call (FileServer root r) ;;;
  withWriter (fileServer e root r).

(** What [main] comes to: a fatal error, or the server. *)
Inductive Started :=
| Fatal
| Serving (mux : Handler).

(** [func main()].  [Root, err := os.Getwd()] declares a variable
    [Root] of [main] (here [Root']); the package-level [Root] is
    another variable, and no statement of the program assigns it.
    [wd] is the answer of [os.Getwd()] and [listen] the error of
    [http.ListenAndServe], [None] while the server runs.  The mux has
    the one pattern ["/"], which takes every request; it is modelled
    by the handler registered for it. *)
Definition main (wd : option string) (listen : option string)
  : State -> Started * State := fun st =>
  match wd with
  | None => (Fatal, st)
  | Some Root' =>
      let fileServer := http_FileServer Root' in
      let mux :=
        http_StripPrefix "/" (loggingMiddleware (handleServe fileServer)) in
      match listen with
      | Some _ => (Fatal, st)
      | None => (Serving mux, st)
      end
  end.

(** The state the process starts in: every package-level variable has
    its zero value. *)
Definition fresh : ResponseWriter :=
  {| status := None; body := []; writes := 0 |}.

Definition start : State :=
  {| vars := {| Root := "" |}; stdlog := []; calls := []; w := fresh |}.

(** The server gives each request a response writer of its own; a panic
    of the handler ends the request (the server recovers it and drops
    the connection) and the process goes on. *)
Definition serveRequest (mux : Handler) (st : State) (er : Env * Request)
  : State :=
  final (mux (fst er) (snd er)
             {| vars := vars st; stdlog := stdlog st; calls := calls st;
                w := fresh |}).

(** The process: [main], and then the requests in the order they are
    served. *)
Definition run (wd : option string) (reqs : list (Env * Request)) : State :=
  match main wd None start with
  | (Fatal, st) => st
  | (Serving mux, st) => fold_left (serveRequest mux) reqs st
  end.

(* ================================================================== *)
(** * Notions the properties are stated with *)

(** ** States and pages *)

(** [st] with other calls and another response. *)
Definition setCalls (st : State) (cs : list Call) (w' : ResponseWriter) : State :=
  {| vars := vars st; stdlog := stdlog st; calls := cs; w := w' |}.

(** The line feed that [http.Error] ends its text with. *)
Definition nl : string := String (ascii_of_nat 10) "".

(** The status of a response once its header is sent: the status
    written before, or 200. *)
Definition sent (s : option nat) : option nat :=
  Some (match s with Some c => c | None => 200 end).

(** The link texts and the link targets of a page, in the order they
    are written. *)
Definition linkTexts (ps : list Piece) : list string :=
  flat_map (fun p => match p with NameVal v => [v] | _ => [] end) ps.

Definition hrefs (ps : list Piece) : list string :=
  flat_map (fun p => match p with HrefVal v => [v] | _ => [] end) ps.

(** A hidden file: its name begins with a dot. *)
Definition hidden (fi : FileInfo) : bool := strings.HasPrefix (Name fi) ".".

(** ** A file tree to run the server on *)

#[warnings="-register-all"]
Inductive Node :=
| File (size : N)
| Folder (children : list (string * Node))
| Locked.   (* a directory that may be neither searched nor read *)

(** The child [name] of a folder. *)
Fixpoint child (name : string) (children : list (string * Node)) : option Node :=
  match children with
  | [] => None
  | (n, c) :: rest => if String.eqb n name then Some c else child name rest
  end.

(** The node reached from [n] along the names [es], or the error of
    the step that fails. *)
Fixpoint walk (n : Node) (es : list string) : Errno + Node :=
  match es with
  | [] => inr n
  | e :: es' =>
      match n with
      | File _ => inl ENOTDIR
      | Locked => inl EACCES
      | Folder children =>
          match child e children with
          | Some c => walk c es'
          | None => inl ENOENT
          end
      end
  end.

(** The [FileInfo] of a node. *)
Definition infoOf (name : string) (n : Node) : FileInfo :=
  match n with
  | File size => {| Name := name; Size := size; IsDir := false |}
  | _ => {| Name := name; Size := 4096; IsDir := true |}
  end.

(** The names a cleaned relative path goes through. *)
Definition steps (path : string) : list string :=
  if String.eqb path "." then [] else filepath.elements path.

(** [os.Stat] and [ioutil.ReadDir] on the tree; the children of a
    folder are kept in the order of their names, the order in which
    [ioutil.ReadDir] returns them. *)
Definition treeStat (root : Node) (path : string) : Errno + FileInfo :=
  match walk root (steps path) with
  | inl err => inl err
  | inr n => inr (infoOf (last (steps path) ".") n)
  end.

Definition treeReadDir (root : Node) (path : string) : Errno + list FileInfo :=
  match walk root (steps path) with
  | inl err => inl err
  | inr (File _) => inl ENOTDIR
  | inr Locked => inl EACCES
  | inr (Folder children) => inr (map (fun nc => infoOf (fst nc) (snd nc)) children)
  end.

(** The surroundings of a server started in [wd] whose working
    directory holds [root]; every write succeeds, and the file server
    answers 200. *)
Definition treeEnv (wd : string) (root : Node) : Env :=
  {| getwd := Some wd;
     stat := fun _ => treeStat root;
     readdir := fun _ => treeReadDir root;
     writeOK := fun _ => true;
     fileServer := fun _ _ w =>
       {| status := sent (status w);
          body := (body w ++ [Plain "(file)"])%list;
          writes := S (writes w) |} |}.

(** The same surroundings with a connection that takes [n] writes and
    then fails. *)
Definition lossy (n : nat) (e : Env) : Env :=
  {| getwd := getwd e; stat := stat e; readdir := readdir e;
     writeOK := fun k => (k <? n)%nat;
     fileServer := fileServer e |}.

(** The tree of the scenario of the specification. *)
Definition specTree : Node :=
  Folder [(".hidden", File 0);
          ("docs", Folder [("readme.txt", File 12)])].

(** A tree with an unreadable directory and a directory whose name
    holds a percent sign. *)
Definition siteTree : Node :=
  Folder [(".hidden", File 0);
          ("100%", Folder [("a", File 1)]);
          ("docs", Folder [("readme.txt", File 12)]);
          ("private", Locked)].

(** A request for [path]. *)
Definition get (path : string) : Request :=
  {| URL_Path := path; RemoteAddr := "127.0.0.1:50000" |}.

(** The handler that [main] serves when it is started in [wd]. *)
Definition server (wd : string) : Handler :=
  match fst (main (Some wd) None start) with
  | Serving mux => mux
  | Fatal => fun _ _ => ret tt
  end.

(** ** Cleaned paths *)

(** A name without a separator. *)
Definition noSlash (e : string) : Prop := strings.ContainsByte e "/" = false.

(** A name that [Clean] keeps as an element. *)
Definition isReal (e : string) : bool :=
  negb (String.eqb e "") && negb (String.eqb e ".")
  && negb (String.eqb e "..") && negb (strings.ContainsByte e "/").

(** The buffer of [Clean] holds names it keeps above [dotdot] elements
    [..], and no [..] at all for a rooted path. *)
Definition wf (r : bool) (out : filepath.lazybuf) : Prop :=
  exists top,
    filepath.written out = (top ++ repeat ".." (filepath.dotdot out))%list
    /\ Forall (fun e => isReal e = true) top
    /\ (r = true -> filepath.dotdot out = 0).

(** What [Clean] returns when its loop ends with the buffer
    [top ++ repeat ".." d]. *)
Definition render (r : bool) (top : list string) (d : nat) : string :=
  let body := String.concat "/" (rev (top ++ repeat ".." d)%list) in
  if r then "/" ++ body
  else match (top ++ repeat ".." d)%list with
       | [] => "."
       | _ => body
       end.

(** What [abs] would return if its last step printed the cleaned path
    as it is. *)
Definition stripped (wd : option string) (dir root : string) : string :=
  filepath.Clean ("/" ++ strings.TrimPrefix (fst (filepath.Abs wd dir))
                                            (fst (filepath.Abs wd root))).

(** An element that the loop of [Clean] does not skip. *)
Definition kept (e : string) : bool :=
  negb (String.eqb e "") && negb (String.eqb e ".").

(** The elements of a path that [Clean] does not skip. *)
Definition names (p : string) : list string :=
  List.filter kept (filepath.elements p).

(** The rooted path and the relative path of a list of names. *)
Definition rootedPath (l : list string) : string := "/" ++ String.concat "/" l.

Definition relPath (l : list string) : string :=
  match l with
  | [] => "."
  | _ => String.concat "/" l
  end.


(** ** The invariant of the package-level [Root] *)

(** The package-level [Root] is empty, and so is the [Root] of every
    listing given to the template so far. *)
Definition inv (st : State) : Prop :=
  Root (vars st) = ""
  /\ forall data, In (ExecuteTemplate data) (calls st) -> Listing.Root data = "".

(** [m] keeps [inv], and the value it returns satisfies [R]. *)
Definition keeps {A} (m : M A) (R : A -> Prop) : Prop :=
  forall st, inv st ->
    inv (final (m st))
    /\ match m st with
       | Return a _ => R a
       | Panic _ _ => True
       end.

(** No condition on the value. *)
Definition any {A} : A -> Prop := fun _ => True.

Create HintDb keeps.

(** A handler that keeps [inv] for every request. *)
Definition keeper (h : Handler) : Prop := forall e r, keeps (h e r) any.

(** ** The length of a format *)

(** [a] is not longer than [b]. *)
Definition shorter (a b : string) : Prop := String.length a <= String.length b.

Create HintDb fuel.

(** ** The buffer of [Clean], by bytes and by elements *)

(** The first element of the part of the path that is left, and what
    follows it. *)
Fixpoint takeElem (p : string) : string :=
  match p with
  | String c p' => if filepath.IsPathSeparator c then "" else String c (takeElem p')
  | EmptyString => ""
  end.

Fixpoint dropElem (p : string) : string :=
  match p with
  | String c p' => if filepath.IsPathSeparator c then p else dropElem p'
  | EmptyString => ""
  end.

(** The bytes of the buffer, last one first, for the elements
    [written] (last one first): the leading separator of a rooted path
    is at the bottom, and one separator stands between two elements. *)
Definition base (r : bool) : string := if r then "/" else "".

Fixpoint outOf (r : bool) (written : list string) : string :=
  match written with
  | [] => base r
  | e :: rest =>
      bytewise.pushAll e (match rest with
                          | [] => base r
                          | _ => String "/" (outOf r rest)
                          end)
  end.

(** The buffer with the separator that a new element needs. *)
Definition sepOut (r : bool) (written : list string) : string :=
  match written with
  | [] => base r
  | _ => String "/" (outOf r written)
  end.

(** An element of at least one byte. *)
Definition nonEmpty (e : string) : Prop := e <> "".

(** ** What a handler leaves behind *)

(** [st'] differs from [st] in the response only. *)
Definition same (st st' : State) : Prop :=
  vars st' = vars st /\ stdlog st' = stdlog st /\ calls st' = calls st.

(** [st] with one more line in the log. *)
Definition logged (st : State) (line : string) : State :=
  {| vars := vars st; stdlog := (stdlog st ++ [line])%list;
     calls := calls st; w := w st |}.

(** The line that the middleware logs for a request. *)
Definition logLine (e : Env) (st : State) (r : Request) : string :=
  abs (getwd e) (filepath.Clean (URL_Path r)) (Root (vars st))
  ++ " " ++ RemoteAddr r.

(* ================================================================== *)
(** * Properties *)

(** ** The library models on inputs of known result *)

Example Clean_abc_def : filepath.Clean "abc//def//ghi" = "abc/def/ghi".
Proof. reflexivity. Qed.
Example Clean_empty : filepath.Clean "" = ".".
Proof. reflexivity. Qed.
Example Clean_root : filepath.Clean "/" = "/".
Proof. reflexivity. Qed.
Example Clean_rooted_dotdot : filepath.Clean "/abc/def/../../.." = "/".
Proof. reflexivity. Qed.
Example Clean_dotdot_prefix :
  filepath.Clean "abc/def/../../../ghi/jkl/../../../mno" = "../../mno".
Proof. reflexivity. Qed.
Example Clean_mixed : filepath.Clean "abc/../../././../def" = "../../def".
Proof. reflexivity. Qed.
Example Clean_trailing : filepath.Clean "//abc//" = "/abc".
Proof. reflexivity. Qed.
Example Clean_to_dot : filepath.Clean "abc/def/../.." = ".".
Proof. reflexivity. Qed.
Example Clean_inner : filepath.Clean "abc/def/ghi/../jkl" = "abc/def/jkl".
Proof. reflexivity. Qed.

Example Sprintf_plain : fmt.Sprintf "/docs/readme.txt" = "/docs/readme.txt".
Proof. reflexivity. Qed.
Example Sprintf_noverb : fmt.Sprintf "/100%" = "/100%!(NOVERB)".
Proof. reflexivity. Qed.
Example Sprintf_missing : fmt.Sprintf "/a%d/b" = "/a%!d(MISSING)/b".
Proof. reflexivity. Qed.
Example Sprintf_percent : fmt.Sprintf "/a%%b" = "/a%b".
Proof. reflexivity. Qed.
Example Sprintf_width : fmt.Sprintf "/a%20b" = "/a%!b(MISSING)".
Proof. reflexivity. Qed.
Example Sprintf_index : fmt.Sprintf "%[1]d|%[x][2]d|%[1][2]d" = "%!d(BADINDEX)|%!d(BADINDEX)|%![(BADINDEX)2]d".
Proof. reflexivity. Qed.
Example Sprintf_star : fmt.Sprintf "%*d|%.*d" = "%!(BADWIDTH)%!d(MISSING)|%!(BADPREC)%!d(MISSING)".
Proof. reflexivity. Qed.
Example abs_docs : abs (Some "/srv/www") "docs" "" = "/docs".
Proof. reflexivity. Qed.
Example abs_dot : abs (Some "/srv/www") "." "" = "/".
Proof. reflexivity. Qed.
Example abs_pct : abs (Some "/srv/www") "100%" "" = "/100%!(NOVERB)".
Proof. reflexivity. Qed.

(** ** The loops of [filter] and [splitFiles] *)

Lemma filter_loop (f : FileInfo -> bool) (files acc : list FileInfo) :
  fold_left (fun vsf v => if f v then (vsf ++ [v])%list else vsf) files acc
  = (acc ++ List.filter f files)%list.
Proof.
  revert acc; induction files as [|v files IH]; intros acc; simpl.
  - now rewrite app_nil_r.
  - rewrite IH. destruct (f v); [now rewrite <- app_assoc | reflexivity].
Qed.

Lemma filter_spec (files : list FileInfo) (f : FileInfo -> bool) :
  filter files f = List.filter f files.
Proof. unfold filter. now rewrite filter_loop. Qed.

Lemma splitFiles_loop (f : FileInfo -> bool) (vs a b : list FileInfo) :
  fold_left (fun '(a, b) v => if f v then ((a ++ [v])%list, b)
                               else (a, (b ++ [v])%list)) vs (a, b)
  = ((a ++ List.filter f vs)%list,
     (b ++ List.filter (fun v => negb (f v)) vs)%list).
Proof.
  revert a b; induction vs as [|v vs IH]; intros a b; simpl.
  - now rewrite !app_nil_r.
  - destruct (f v); simpl; rewrite IH, <- app_assoc; reflexivity.
Qed.

Lemma splitFiles_spec (vs : list FileInfo) (f : FileInfo -> bool) :
  splitFiles vs f
  = (List.filter f vs, List.filter (fun v => negb (f v)) vs).
Proof. unfold splitFiles. now rewrite splitFiles_loop. Qed.

(** ** Running the handlers *)

(** [http.Error] on a response whose header is not written yet. *)
Lemma http_Error_fresh (e : Env) (error : string) (code : nat) (st : State) :
  w st = fresh ->
  http_Error e error code st
  = Return tt (setCalls st (calls st)
       {| status := Some code;
          body := if writeOK e 0 then [Plain (error ++ nl)] else [];
          writes := 1 |}).
Proof.
  intros Hw. destruct st as [v l c wr]; simpl in *; subst wr.
  unfold http_Error, WriteHeader, Write, withWriter, bind, ret, setCalls; simpl.
  destruct (writeOK e 0); reflexivity.
Qed.

Lemma os_Stat_run (e : Env) (path : string) (st : State) :
  os_Stat e path st
  = Return (match stat e (List.length (calls st)) path with
            | inl err => (None, Some err)
            | inr info => (Some info, None)
            end)
           (setCalls st (calls st ++ [Stat path])%list (w st)).
Proof.
  unfold os_Stat, clock, call, bind, ret, setCalls; simpl.
  destruct (stat e (List.length (calls st)) path); reflexivity.
Qed.

Lemma ioutil_ReadDir_run (e : Env) (path : string) (st : State) :
  ioutil_ReadDir e path st
  = Return (match readdir e (List.length (calls st)) path with
            | inl err => ([], Some err)
            | inr contents => (contents, None)
            end)
           (setCalls st (calls st ++ [ReadDir path])%list (w st)).
Proof.
  unfold ioutil_ReadDir, clock, call, bind, ret, setCalls; simpl.
  destruct (readdir e (List.length (calls st)) path); reflexivity.
Qed.

(** C9.  When reading the children of the directory fails,
    [handleDirectory] answers with status 500 and the text of that
    status, and nothing of a listing is produced: the template is not
    executed, and the one call made is the failed read. *)
Theorem handleDirectory_read_error
  (e : Env) (r : Request) (path : string) (st : State) (err : Errno) :
  readdir e (List.length (calls st)) path = inl err ->
  w st = fresh ->
  handleDirectory e r path st
  = Return tt
      {| vars := vars st; stdlog := stdlog st;
         calls := (calls st ++ [ReadDir path])%list;
         w := {| status := Some 500;
                 body := if writeOK e 0
                         then [Plain ("Internal Server Error" ++ nl)] else [];
                 writes := 1 |} |}.
Proof.
  intros Hread Hw.
  unfold handleDirectory, bind. rewrite ioutil_ReadDir_run, Hread.
  rewrite http_Error_fresh by exact Hw. reflexivity.
Qed.


(** ** Writing the page *)

Lemma writeAll_ok (e : Env) (ps : list Piece) (st : State) :
  (forall k, writeOK e k = true) ->
  writeAll e ps st
  = Return None (setCalls st (calls st)
      {| status := match ps with [] => status (w st) | _ => sent (status (w st)) end;
         body := (body (w st) ++ ps)%list;
         writes := writes (w st) + List.length ps |}).
Proof.
  intros Hok. revert st; induction ps as [|p ps IH]; intros st.
  - destruct st as [v l c [s b n]]; simpl; unfold ret, setCalls; simpl.
    now rewrite app_nil_r, Nat.add_0_r.
  - destruct st as [v l c [s b n]].
    simpl. unfold bind, Write, WriteHeader, withWriter, bind. simpl.
    rewrite Hok. simpl. rewrite IH. unfold setCalls; simpl.
    rewrite <- app_assoc, Nat.add_succ_r. simpl.
    destruct ps; destruct s; reflexivity.
Qed.

Lemma flat_map_app' {A B} (f : A -> list B) (l1 l2 : list A) :
  flat_map f (l1 ++ l2)%list = (flat_map f l1 ++ flat_map f l2)%list.
Proof.
  induction l1 as [|a l1 IH]; simpl; [reflexivity|].
  now rewrite IH, app_assoc.
Qed.

Lemma linkTexts_items (dir : string) (fis : list FileInfo) :
  linkTexts (flat_map (fun fi =>
     [Text ItemOpen; HrefVal (href dir fi); Text ItemMid;
      NameVal (Name fi); Text ItemClose]) fis)
  = map Name fis.
Proof. induction fis as [|fi fis IH]; simpl; [reflexivity | now rewrite IH]. Qed.


Lemma linkTexts_templateOutput (wd : option string) (data : Listing.t) :
  linkTexts (templateOutput wd data)
  = map Name (Listing.Directories data ++ Listing.Files data)%list.
Proof.
  unfold templateOutput, linkTexts.
  rewrite !flat_map_app'. fold linkTexts.
  rewrite !linkTexts_items. simpl. now rewrite app_nil_r, map_app.
Qed.


Lemma Template_ExecuteTemplate_ok (e : Env) (data : Listing.t) (st : State) :
  (forall k, writeOK e k = true) ->
  Template_ExecuteTemplate e "index.html" data st
  = Return None (setCalls st (calls st ++ [ExecuteTemplate data])%list
      {| status := sent (status (w st));
         body := (body (w st) ++ templateOutput (getwd e) data)%list;
         writes := writes (w st)
                   + List.length (templateOutput (getwd e) data) |}).
Proof.
  intros Hok. unfold Template_ExecuteTemplate.
  change (String.eqb "index.html" "index.html") with true. cbv iota.
  unfold bind, call. rewrite writeAll_ok by exact Hok.
  reflexivity.
Qed.

(** C2.  A request for a directory whose children [contents] the
    directory read returns, answered while the response can be
    written, gets status 200 and the page of a listing whose
    directories are the children that are not hidden and are
    directories, and whose files are the children that are not hidden
    and are not directories, each in the order of [contents]; the link
    texts of the page are their names, directories first. *)
Theorem handleServe_directory_listing
  (next : Handler) (e : Env) (r : Request) (st : State)
  (info : FileInfo) (contents : list FileInfo) :
  let path := filepath.Clean (URL_Path r) in
  let visible := List.filter (fun fi => negb (hidden fi)) contents in
  let data := {| Listing.Root := Root (vars st);
                 Listing.Dir := path;
                 Listing.Directories := List.filter IsDir visible;
                 Listing.Files := List.filter (fun fi => negb (IsDir fi)) visible |} in
  stat e (List.length (calls st)) path = inr info ->
  IsDir info = true ->
  readdir e (List.length (calls st) + 2) path = inr contents ->
  (forall k, writeOK e k = true) ->
  w st = fresh ->
  handleServe next e r st
  = Return tt
      {| vars := vars st; stdlog := stdlog st;
         calls := (calls st ++ [Stat path; ReadDir path; ReadDir path;
                                ExecuteTemplate data])%list;
         w := {| status := Some 200;
                 body := templateOutput (getwd e) data;
                 writes := List.length (templateOutput (getwd e) data) |} |}
  /\ linkTexts (templateOutput (getwd e) data)
     = (map Name (List.filter IsDir visible)
        ++ map Name (List.filter (fun fi => negb (IsDir fi)) visible))%list
  /\ (forall fi, In fi (Listing.Directories data ++ Listing.Files data)%list
                 <-> In fi contents /\ hidden fi = false).
Proof.
  intros path visible data Hstat Hdir Hread Hok Hw.
  split; [|split].
  - remember (templateOutput (getwd e) data) as page eqn:Hpage.
    unfold handleServe, bind. fold path. rewrite os_Stat_run, Hstat. simpl.
    rewrite Hdir. rewrite ioutil_ReadDir_run. simpl.
    unfold handleDirectory, bind. rewrite ioutil_ReadDir_run. simpl.
    rewrite !length_app. simpl.
    replace (List.length (calls st) + 1 + 1) with (List.length (calls st) + 2) by lia.
    rewrite Hread.
    unfold filterFiles. rewrite filter_spec, splitFiles_spec.
    fold hidden. fold visible. unfold getRoot. simpl.
    rewrite Template_ExecuteTemplate_ok by exact Hok.
    simpl. rewrite Hw. unfold ret, setCalls. simpl.
    rewrite <- !app_assoc. subst page. reflexivity.
  - rewrite linkTexts_templateOutput. simpl. now rewrite map_app.
  - intros fi. simpl. rewrite in_app_iff, !filter_In. unfold visible.
    rewrite filter_In. destruct (IsDir fi), (hidden fi); simpl; intuition congruence.
Qed.

(** ** The scenario of the specification *)

Example scenario_root :
  let o := server "/srv/www" (treeEnv "/srv/www" specTree) (get "/") start in
  status (w (final o)) = Some 200
  /\ hrefs (body (w (final o))) = ["/docs"]
  /\ linkTexts (body (w (final o))) = ["docs"].
Proof. vm_compute. repeat split. Qed.

Example scenario_docs :
  let o := server "/srv/www" (treeEnv "/srv/www" specTree) (get "/docs") start in
  status (w (final o)) = Some 200
  /\ hrefs (body (w (final o))) = ["/docs/readme.txt"]
  /\ linkTexts (body (w (final o))) = ["readme.txt"].
Proof. vm_compute. repeat split. Qed.

Example scenario_file :
  let o := server "/srv/www" (treeEnv "/srv/www" specTree) (get "/docs/readme.txt") start in
  status (w (final o)) = Some 200
  /\ calls (final o) = [Stat "docs/readme.txt";
                        FileServer "/srv/www" (get "docs/readme.txt")].
Proof. vm_compute. repeat split. Qed.

Example scenario_missing :
  let o := server "/srv/www" (treeEnv "/srv/www" specTree) (get "/missing") start in
  status (w (final o)) = Some 404 /\ calls (final o) = [Stat "missing"].
Proof. vm_compute. repeat split. Qed.

(** ** [filepath.Clean] *)

Lemma append_nil_r (s : string) : s ++ "" = s.
Proof. induction s as [|c s IH]; simpl; [reflexivity | now rewrite IH]. Qed.

Lemma append_assoc (a b c : string) : (a ++ b) ++ c = a ++ (b ++ c).
Proof. induction a as [|x a IH]; simpl; [reflexivity | now rewrite IH]. Qed.

Lemma elements_not_nil (p : string) : filepath.elements p <> [].
Proof.
  destruct p as [|c p]; simpl; [discriminate|].
  destruct (filepath.IsPathSeparator c); [discriminate|].
  destruct (filepath.elements p); discriminate.
Qed.

(** The elements of [a/b] are those of [a] followed by those of [b]. *)
Lemma elements_sep (a b : string) :
  filepath.elements (a ++ "/" ++ b)
  = (filepath.elements a ++ filepath.elements b)%list.
Proof.
  induction a as [|c a IH]; simpl; [reflexivity|].
  destruct (filepath.IsPathSeparator c); simpl.
  - now rewrite <- IH.
  - simpl in IH. rewrite IH.
    pose proof (elements_not_nil a) as Hne.
    destruct (filepath.elements a); [contradiction | reflexivity].
Qed.

Lemma rooted_append (a b : string) :
  a <> "" -> filepath.rooted (a ++ b) = filepath.rooted a.
Proof. destruct a; [contradiction | reflexivity]. Qed.

Lemma append_not_empty (a b : string) : a <> "" -> a ++ b <> "".
Proof. destruct a; [contradiction | discriminate]. Qed.

(** [Clean] of a path that is not empty, by its loop. *)
Lemma Clean_unfold (p : string) :
  p <> "" ->
  filepath.Clean p
  = let out := filepath.cleanLoop p in
    let body := String.concat "/" (rev (filepath.written out)) in
    if filepath.rooted p then "/" ++ body
    else match filepath.written out with
         | [] => "."
         | _ => body
         end.
Proof. destruct p; [contradiction | reflexivity]. Qed.


(** A separator at the end of a path changes nothing. *)
Lemma Clean_trailing_separator (p : string) :
  p <> "" -> filepath.Clean (p ++ "/") = filepath.Clean p.
Proof.
  intros Hp.
  rewrite (Clean_unfold (append_not_empty "/" Hp)), (Clean_unfold Hp).
  unfold filepath.cleanLoop.
  rewrite (rooted_append "/" Hp).
  change (p ++ "/") with (p ++ "/" ++ "").
  rewrite elements_sep. simpl filepath.elements.
  rewrite fold_left_app. reflexivity.
Qed.


(** A rooted path is cleaned to a rooted path. *)
Lemma Clean_rooted (p : string) :
  filepath.rooted p = true -> exists t, filepath.Clean p = "/" ++ t.
Proof.
  intros Hr. destruct p as [|c p]; [discriminate|].
  unfold filepath.Clean. rewrite Hr. eexists; reflexivity.
Qed.

Lemma isReal_noSlash (e : string) : isReal e = true -> noSlash e.
Proof.
  unfold isReal, noSlash. intros H.
  apply andb_prop in H as [_ H]. now apply negb_true_iff in H.
Qed.

Lemma elements_noSlash (p : string) : Forall noSlash (filepath.elements p).
Proof.
  induction p as [|c p IH]; simpl.
  - constructor; [reflexivity | constructor].
  - destruct (filepath.IsPathSeparator c) eqn:Hc.
    + constructor; [reflexivity | exact IH].
    + destruct (filepath.elements p) as [|e es]; constructor.
      * unfold noSlash; simpl.
        unfold filepath.IsPathSeparator, filepath.Separator in Hc.
        now rewrite Hc.
      * constructor.
      * inversion IH; subst. unfold noSlash in *; simpl.
        unfold filepath.IsPathSeparator, filepath.Separator in Hc.
        now rewrite Hc.
      * now inversion IH.
Qed.

Lemma elements_single (e : string) : noSlash e -> filepath.elements e = [e].
Proof.
  unfold noSlash. induction e as [|c e IH]; simpl; [reflexivity|].
  intros H. apply orb_false_iff in H as [Hc He].
  unfold filepath.IsPathSeparator, filepath.Separator. rewrite Hc.
  now rewrite (IH He).
Qed.

Lemma elements_concat (l : list string) :
  l <> [] -> Forall noSlash l ->
  filepath.elements (String.concat "/" l) = l.
Proof.
  induction l as [|x l IH]; [contradiction|].
  intros _ Hall. inversion Hall as [|? ? Hx Hl]; subst.
  destruct l as [|y l].
  - simpl. now apply elements_single.
  - change (String.concat "/" (x :: y :: l))
      with (x ++ "/" ++ String.concat "/" (y :: l)).
    rewrite elements_sep, (elements_single Hx), IH by (discriminate || assumption).
    reflexivity.
Qed.

Lemma fold_reals (r : bool) (l : list string) (wr : list string) (d : nat) :
  Forall (fun e => isReal e = true) l ->
  fold_left (filepath.cleanElem r) l {| filepath.written := wr; filepath.dotdot := d |}
  = {| filepath.written := (rev l ++ wr)%list; filepath.dotdot := d |}.
Proof.
  revert wr; induction l as [|e l IH]; intros wr Hall; [reflexivity|].
  inversion Hall as [|? ? He Hl]; subst. simpl fold_left.
  assert (Hstep : filepath.cleanElem r
            {| filepath.written := wr; filepath.dotdot := d |} e
          = {| filepath.written := e :: wr; filepath.dotdot := d |}).
  { unfold filepath.cleanElem. unfold isReal in He.
    apply andb_prop in He as [He _]. apply andb_prop in He as [He H3].
    apply andb_prop in He as [H1 H2].
    apply negb_true_iff in H1, H2, H3. now rewrite H1, H2, H3. }
  rewrite Hstep, IH by assumption. simpl. now rewrite <- app_assoc.
Qed.

Lemma fold_dotdots (n k : nat) :
  fold_left (filepath.cleanElem false) (repeat ".." n)
    {| filepath.written := repeat ".." k; filepath.dotdot := k |}
  = {| filepath.written := repeat ".." (n + k); filepath.dotdot := n + k |}.
Proof.
  revert k; induction n as [|n IH]; intros k; [reflexivity|].
  simpl fold_left.
  assert (Hstep : filepath.cleanElem false
            {| filepath.written := repeat ".." k; filepath.dotdot := k |} ".."
          = {| filepath.written := repeat ".." (S k); filepath.dotdot := S k |}).
  { unfold filepath.cleanElem. simpl. rewrite repeat_length, Nat.ltb_irrefl.
    reflexivity. }
  rewrite Hstep, IH. now rewrite Nat.add_succ_r.
Qed.

Lemma cleanElem_wf (r : bool) (out : filepath.lazybuf) (e : string) :
  noSlash e -> wf r out -> wf r (filepath.cleanElem r out e).
Proof.
  intros He (top & Hw & Htop & Hr). unfold filepath.cleanElem.
  destruct (String.eqb e "") eqn:E1; [now exists top|].
  destruct (String.eqb e ".") eqn:E2; [now exists top|].
  destruct (String.eqb e "..") eqn:E3.
  - destruct (Nat.ltb (filepath.dotdot out) (List.length (filepath.written out))) eqn:Hlt.
    + apply Nat.ltb_lt in Hlt. rewrite Hw, length_app, repeat_length in Hlt.
      destruct top as [|t top]; [simpl in Hlt; lia|].
      exists top. simpl. rewrite Hw. simpl. inversion Htop; subst. auto.
    + apply Nat.ltb_ge in Hlt. rewrite Hw, length_app, repeat_length in Hlt.
      destruct top as [|t top]; [|simpl in Hlt; lia].
      destruct r; simpl.
      * exists []. auto.
      * exists []. simpl. rewrite Hw. simpl. rewrite repeat_length.
        repeat split; [constructor | discriminate].
  - exists (e :: top). simpl. rewrite Hw. repeat split; auto.
    constructor; [|assumption]. unfold isReal. rewrite E1, E2, E3.
    unfold noSlash in He. now rewrite He.
Qed.

Lemma cleanLoop_wf (p : string) : wf (filepath.rooted p) (filepath.cleanLoop p).
Proof.
  unfold filepath.cleanLoop.
  assert (Hinit : wf (filepath.rooted p)
            {| filepath.written := []; filepath.dotdot := 0 |}).
  { exists []. simpl. repeat split; constructor. }
  revert Hinit. generalize {| filepath.written := []; filepath.dotdot := 0 |}.
  pose proof (elements_noSlash p) as Hall.
  induction Hall as [|e es He Hes IH]; intros out Hout; simpl; [exact Hout|].
  apply IH. now apply cleanElem_wf.
Qed.

Lemma Clean_render (p : string) :
  exists top d,
    Forall (fun e => isReal e = true) top
    /\ (filepath.rooted p = true -> d = 0)
    /\ filepath.Clean p = render (filepath.rooted p) top d.
Proof.
  destruct (cleanLoop_wf p) as (top & Hw & Htop & Hr).
  destruct p as [|c p].
  - exists [], 0. repeat split; constructor.
  - exists top, (filepath.dotdot (filepath.cleanLoop (String c p))).
    repeat split; [assumption | assumption |].
    unfold filepath.Clean, render. now rewrite Hw.
Qed.

Lemma concat_head (e : string) (l : list string) :
  exists t, String.concat "/" (e :: l) = e ++ t.
Proof.
  destruct l as [|y l].
  - exists "". simpl. now rewrite append_nil_r.
  - eexists. reflexivity.
Qed.

Lemma rooted_noSlash (e t : string) :
  e <> "" -> noSlash e -> filepath.rooted (e ++ t) = false /\ e ++ t <> "".
Proof.
  intros He Hs. destruct e as [|c e]; [contradiction|].
  unfold noSlash in Hs. simpl in Hs. apply orb_false_iff in Hs as [Hc _].
  split; [exact Hc | discriminate].
Qed.

Lemma dotdot_noSlash : noSlash "..".
Proof. reflexivity. Qed.

(** [Clean] leaves alone every path it can return. *)
Lemma Clean_render_fixed (r : bool) (top : list string) (d : nat) :
  Forall (fun e => isReal e = true) top ->
  (r = true -> d = 0) ->
  filepath.Clean (render r top d) = render r top d.
Proof.
  intros Htop Hr.
  assert (Hrev : Forall (fun e => isReal e = true) (rev top))
    by (apply Forall_rev, Htop).
  assert (HrevS : Forall noSlash (rev top)).
  { eapply Forall_impl; [|exact Hrev]. apply isReal_noSlash. }
  destruct r.
  - (* rooted *)
    rewrite (Hr eq_refl). unfold render. simpl repeat. rewrite app_nil_r.
    set (l := rev top) in *.
    unfold filepath.Clean. simpl append. cbv iota.
    change (filepath.rooted (String "/" (String.concat "/" l))) with true.
    cbv iota. unfold filepath.cleanLoop.
    change (filepath.rooted (String "/" (String.concat "/" l))) with true.
    change (filepath.elements (String "/" (String.concat "/" l)))
      with ("" :: filepath.elements (String.concat "/" l)).
    simpl fold_left.
    destruct l as [|x l1] eqn:Hl.
    + reflexivity.
    + rewrite elements_concat by (discriminate || assumption).
      change (filepath.cleanElem true
                {| filepath.written := []; filepath.dotdot := 0 |} "")
        with {| filepath.written := []; filepath.dotdot := 0 |}.
      rewrite fold_reals by assumption. cbn [filepath.written].
      now rewrite app_nil_r, rev_involutive.
  - (* not rooted *)
    unfold render.
    destruct (top ++ repeat ".." d)%list as [|x l0] eqn:Hl; [reflexivity|].
    rewrite <- Hl. rewrite rev_app_distr, rev_repeat.
    remember (repeat ".." d ++ rev top)%list as l eqn:El.
    assert (Hall : Forall noSlash l).
    { subst l. apply Forall_app. split; [|assumption].
      apply Forall_forall. intros y Hy. apply repeat_spec in Hy. subst y.
      exact dotdot_noSlash. }
    assert (Hlen : List.length l = S (List.length l0)).
    { subst l. rewrite length_app, length_rev, Nat.add_comm, <- length_app, Hl.
      reflexivity. }
    destruct l as [|e l']; [discriminate|].
    assert (He : e <> "" /\ noSlash e).
    { inversion Hall as [|? ? Hs _]; subst. split; [|assumption].
      destruct d as [|d].
      - simpl in El.
        assert (Hin : In e (rev top)) by (rewrite <- El; left; reflexivity).
        rewrite Forall_forall in Hrev. specialize (Hrev e Hin).
        intros ->. discriminate.
      - simpl in El. inversion El. discriminate. }
    destruct (concat_head e l') as [t Ht].
    destruct (rooted_noSlash t (proj1 He) (proj2 He)) as [Hroot Hnemp].
    rewrite <- Ht in Hroot, Hnemp.
    rewrite (Clean_unfold Hnemp). cbv zeta. rewrite Hroot.
    unfold filepath.cleanLoop. rewrite Hroot.
    rewrite elements_concat by (discriminate || assumption).
    rewrite El. rewrite fold_left_app.
    change {| filepath.written := []; filepath.dotdot := 0 |}
      with {| filepath.written := repeat ".." 0; filepath.dotdot := 0 |}.
    rewrite fold_dotdots, Nat.add_0_r.
    rewrite fold_reals by assumption. cbn [filepath.written].
    rewrite rev_involutive, Hl.
    rewrite <- Hl, rev_app_distr, rev_repeat. reflexivity.
Qed.

(** [Clean] is idempotent. *)
Lemma Clean_idempotent (p : string) :
  filepath.Clean (filepath.Clean p) = filepath.Clean p.
Proof.
  destruct (Clean_render p) as (top & d & Htop & Hr & Heq).
  rewrite Heq. now apply Clean_render_fixed.
Qed.

(** ** [fmt.Sprintf] with no operand, and [abs] *)

Lemma doPrintf_no_percent (s : string) (fuel : nat) :
  strings.ContainsByte s "%" = false ->
  String.length s <= fuel ->
  fmt.doPrintf fuel s = s.
Proof.
  revert fuel; induction s as [|c s IH]; intros fuel Hs Hf.
  - destruct fuel; reflexivity.
  - simpl in Hs. apply orb_false_iff in Hs as [Hc Hs].
    destruct fuel as [|fuel]; [simpl in Hf; lia|].
    simpl. rewrite Hc. rewrite IH; [reflexivity | assumption | simpl in Hf; lia].
Qed.

(** A format without a percent sign is printed as it is. *)
Lemma Sprintf_no_percent (s : string) :
  strings.ContainsByte s "%" = false -> fmt.Sprintf s = s.
Proof. intros Hs. now apply doPrintf_no_percent. Qed.

Lemma Sprintf_rooted (t : string) :
  fmt.Sprintf ("/" ++ t) = "/" ++ fmt.doPrintf (String.length t) t.
Proof. reflexivity. Qed.

Lemma abs_unfold (wd : option string) (dir root : string) :
  abs wd dir root = fmt.Sprintf (stripped wd dir root).
Proof. reflexivity. Qed.

(** [abs] returns a path that begins with a separator. *)
Lemma abs_rooted (wd : option string) (dir root : string) :
  exists t, abs wd dir root = "/" ++ t.
Proof.
  rewrite abs_unfold. unfold stripped.
  destruct (@Clean_rooted ("/" ++ strings.TrimPrefix (fst (filepath.Abs wd dir))
                                    (fst (filepath.Abs wd root))) eq_refl)
    as [t Ht].
  rewrite Ht, Sprintf_rooted. eexists; reflexivity.
Qed.

(** Where the cleaned path holds no percent sign, [abs] returns it. *)
Lemma abs_no_percent (wd : option string) (dir root : string) :
  strings.ContainsByte (stripped wd dir root) "%" = false ->
  abs wd dir root = stripped wd dir root.
Proof. intros H. rewrite abs_unfold. now apply Sprintf_no_percent. Qed.

Lemma HasPrefix_nil (s : string) : strings.HasPrefix s "" = true.
Proof. destruct s; reflexivity. Qed.

Lemma IsAbs_append (a b : string) :
  a <> "" -> filepath.IsAbs (a ++ b) = filepath.IsAbs a.
Proof.
  destruct a as [|c a]; [contradiction|]. intros _.
  unfold filepath.IsAbs. simpl. now rewrite !HasPrefix_nil.
Qed.




(** ** The links of a page *)




(** C7.  [abs] prints the cleaned path as a format: for the directory
    [/srv/100%] under the root [/srv], the prefix is stripped and the
    rest cleaned to [/100%], and what [abs] returns is not that path. *)
Theorem abs_percent :
  stripped (Some "/") "/srv/100%" "/srv" = "/100%"
  /\ abs (Some "/") "/srv/100%" "/srv" = "/100%!(NOVERB)"
  /\ abs (Some "/") "/srv/100%" "/srv" <> stripped (Some "/") "/srv/100%" "/srv".
Proof. repeat split. vm_compute. discriminate. Qed.

(** [abs] strips the root as a prefix of bytes, also from a directory
    that is not under the root. *)
Example abs_sibling : abs (Some "/") "/srv2/x" "/srv" = "/2/x".
Proof. reflexivity. Qed.

Example abs_outside : abs (Some "/") "/etc/ssl" "/srv" = "/etc/ssl".
Proof. reflexivity. Qed.

(** ** Links and the paths they resolve to *)

Lemma fold_kept (r : bool) (es : list string) (out : filepath.lazybuf) :
  fold_left (filepath.cleanElem r) es out
  = fold_left (filepath.cleanElem r) (List.filter kept es) out.
Proof.
  revert out; induction es as [|e es IH]; intros out; [reflexivity|].
  simpl. unfold kept at 1.
  destruct (String.eqb e "") eqn:E1.
  - simpl. rewrite <- IH. unfold filepath.cleanElem. now rewrite E1.
  - destruct (String.eqb e ".") eqn:E2; simpl.
    + rewrite <- IH. unfold filepath.cleanElem. now rewrite E1, E2.
    + apply IH.
Qed.

Lemma isReal_kept (e : string) : isReal e = true -> kept e = true.
Proof.
  unfold isReal, kept. intros H.
  apply andb_prop in H as [H _]. apply andb_prop in H as [H _]. exact H.
Qed.

Lemma filter_kept_reals (l : list string) :
  Forall (fun e => isReal e = true) l -> List.filter kept l = l.
Proof.
  induction 1 as [|e l He Hl IH]; simpl; [reflexivity|].
  now rewrite (isReal_kept e He), IH.
Qed.

Lemma reals_noSlash (l : list string) :
  Forall (fun e => isReal e = true) l -> Forall noSlash l.
Proof. intros H. eapply Forall_impl; [|exact H]. apply isReal_noSlash. Qed.

Lemma names_sep (a b : string) : names (a ++ "/" ++ b) = (names a ++ names b)%list.
Proof. unfold names. now rewrite elements_sep, filter_app. Qed.

Lemma names_concat (l : list string) :
  Forall (fun e => isReal e = true) l -> names (String.concat "/" l) = l.
Proof.
  intros Hl. unfold names. destruct l as [|x l]; [reflexivity|].
  rewrite elements_concat by (discriminate || now apply reals_noSlash).
  now apply filter_kept_reals.
Qed.


Lemma names_rootedPath (l : list string) :
  Forall (fun e => isReal e = true) l -> names (rootedPath l) = l.
Proof.
  intros Hl. unfold rootedPath.
  change ("/" ++ String.concat "/" l) with ("" ++ "/" ++ String.concat "/" l).
  rewrite names_sep. simpl. now apply names_concat.
Qed.

Lemma names_relPath (l : list string) :
  Forall (fun e => isReal e = true) l -> names (relPath l) = l.
Proof.
  intros Hl. destruct l as [|x l]; [reflexivity|]. now apply names_concat.
Qed.

(** [Clean] of a path whose elements, the skipped ones apart, are
    names it keeps: the names, joined again. *)
Lemma Clean_names (p : string) :
  p <> "" ->
  Forall (fun e => isReal e = true) (names p) ->
  filepath.Clean p
  = if filepath.rooted p then rootedPath (names p) else relPath (names p).
Proof.
  intros Hp Hn. rewrite (Clean_unfold Hp). cbv zeta.
  unfold filepath.cleanLoop. rewrite fold_kept. fold (names p).
  rewrite fold_reals by exact Hn. cbn [filepath.written].
  rewrite app_nil_r, rev_involutive.
  destruct (filepath.rooted p); [reflexivity|].
  unfold relPath. destruct (names p) as [|x l]; [reflexivity|].
  simpl rev. destruct (rev l); reflexivity.
Qed.

Lemma relPath_not_rooted (l : list string) :
  Forall (fun e => isReal e = true) l ->
  relPath l <> "" /\ filepath.rooted (relPath l) = false.
Proof.
  intros Hl. destruct l as [|x l]; [split; [discriminate | reflexivity]|].
  unfold relPath. destruct (concat_head x l) as [t Ht]. rewrite Ht.
  inversion Hl as [|? ? Hx _]; subst.
  assert (Hne : x <> "") by (intros ->; discriminate).
  destruct (rooted_noSlash t Hne (isReal_noSlash x Hx)) as [H1 H2].
  split; assumption.
Qed.

Lemma rooted_IsAbs (p : string) : filepath.IsAbs p = filepath.rooted p.
Proof.
  destruct p as [|c p]; [reflexivity|].
  unfold filepath.IsAbs. simpl. now rewrite HasPrefix_nil, andb_true_r.
Qed.

Lemma TrimPrefix_append (a b : string) : strings.TrimPrefix (a ++ b) a = b.
Proof.
  unfold strings.TrimPrefix.
  assert (H : strings.HasPrefix (a ++ b) a = true /\
              strings.drop (String.length a) (a ++ b) = b).
  { induction a as [|c a [IH1 IH2]]; simpl.
    - split; [apply HasPrefix_nil | reflexivity].
    - now rewrite Ascii.eqb_refl, IH1, IH2. }
  destruct H as [H1 H2]. now rewrite H1, H2.
Qed.

Lemma concat_app (l1 l2 : list string) :
  l1 <> [] -> l2 <> [] ->
  String.concat "/" (l1 ++ l2) = String.concat "/" l1 ++ "/" ++ String.concat "/" l2.
Proof.
  intros H1 H2. induction l1 as [|x l1 IH]; [contradiction|].
  destruct l1 as [|y l1].
  - simpl. destruct l2; [contradiction | reflexivity].
  - change (String.concat "/" ((x :: y :: l1) ++ l2))
      with (x ++ "/" ++ String.concat "/" ((y :: l1) ++ l2)).
    rewrite IH by discriminate.
    change (String.concat "/" (x :: y :: l1))
      with (x ++ "/" ++ String.concat "/" (y :: l1)).
    now rewrite !append_assoc.
Qed.

(** [filepath.Join] of the working directory and a clean relative
    path. *)
Lemma Join_rooted_rel (cs bs : list string) :
  Forall (fun e => isReal e = true) cs ->
  Forall (fun e => isReal e = true) bs ->
  filepath.Join (rootedPath cs) (relPath bs) = rootedPath (cs ++ bs).
Proof.
  intros Hc Hb.
  change (filepath.Join (rootedPath cs) (relPath bs))
    with (filepath.Clean (rootedPath cs ++ "/" ++ relPath bs)).
  rewrite Clean_names.
  - rewrite names_sep, names_rootedPath, names_relPath by assumption.
    reflexivity.
  - discriminate.
  - rewrite names_sep, names_rootedPath, names_relPath by assumption.
    apply Forall_app. now split.
Qed.

(** For the working directory [/cs] and the directory [bs] under it,
    the path [abs] cleans is [/bs]. *)
Lemma stripped_under_root (cs bs : list string) :
  Forall (fun e => isReal e = true) cs ->
  Forall (fun e => isReal e = true) bs ->
  stripped (Some (rootedPath cs)) (relPath bs) "" = rootedPath bs.
Proof.
  intros Hc Hb. unfold stripped, filepath.Abs.
  destruct (relPath_not_rooted Hb) as [_ Hrel].
  rewrite rooted_IsAbs, Hrel.
  change (filepath.IsAbs "") with false. cbv iota. cbn [fst].
  rewrite (Join_rooted_rel Hc Hb).
  change (filepath.Join (rootedPath cs) "")
    with (filepath.Clean (rootedPath cs ++ "/" ++ "")).
  assert (Hroot : filepath.Clean (rootedPath cs ++ "/" ++ "") = rootedPath cs).
  { rewrite Clean_names.
    - rewrite names_sep, names_rootedPath by assumption. simpl.
      now rewrite app_nil_r.
    - discriminate.
    - rewrite names_sep, names_rootedPath by assumption. simpl.
      now rewrite app_nil_r. }
  rewrite Hroot.
  assert (Hnames : forall t, names t = bs ->
            filepath.Clean ("/" ++ t) = rootedPath bs).
  { intros t Ht. rewrite Clean_names.
    - change ("/" ++ t) with ("" ++ "/" ++ t). rewrite names_sep, Ht.
      reflexivity.
    - discriminate.
    - change ("/" ++ t) with ("" ++ "/" ++ t). rewrite names_sep, Ht.
      exact Hb. }
  destruct cs as [|c cs].
  - (* the working directory is the root *)
    unfold rootedPath at 2. simpl String.concat.
    change ("/" ++ "") with "/".
    unfold rootedPath at 1. simpl app.
    rewrite (TrimPrefix_append "/" (String.concat "/" bs)).
    apply Hnames. now apply names_concat.
  - destruct bs as [|b bs].
    + rewrite app_nil_r.
      rewrite <- (append_nil_r (rootedPath (c :: cs))) at 1.
      rewrite TrimPrefix_append. reflexivity.
    + unfold rootedPath at 1 2.
      rewrite concat_app by discriminate.
      rewrite <- append_assoc.
      rewrite (TrimPrefix_append ("/" ++ String.concat "/" (c :: cs))
                 ("/" ++ String.concat "/" (b :: bs))).
      apply Hnames.
      change ("/" ++ String.concat "/" (b :: bs))
        with ("" ++ "/" ++ String.concat "/" (b :: bs)).
      rewrite names_sep. simpl names at 1. now apply names_concat.
Qed.


(** C5.  The directory [100%] of the served tree holds the file [a].
    The page of the directory links the file as [/100%!(NOVERB)/a]; a
    request for that link asks the file system for
    [100%!(NOVERB)/a], which does not exist, and is answered 404,
    while the file is at [100%/a]. *)
Theorem link_of_percent_directory :
  let e := treeEnv "/srv/www" siteTree in
  let page := final (server "/srv/www" e (get "/100%") start) in
  let back := final (server "/srv/www" e (get "/100%!(NOVERB)/a") start) in
  status (w page) = Some 200
  /\ linkTexts (body (w page)) = ["a"]
  /\ hrefs (body (w page)) = ["/100%!(NOVERB)/a"]
  /\ calls back = [Stat "100%!(NOVERB)/a"]
  /\ status (w back) = Some 404
  /\ treeStat siteTree (filepath.Join "100%" "a")
     = inr {| Name := "a"; Size := 1; IsDir := false |}.
Proof. vm_compute. repeat split. Qed.

(** ** Errors of [os.Stat] *)

(** After an error of [os.Stat] that is not "does not exist",
    [handleServe] goes on to [info.IsDir()] with the nil [info] and
    panics; nothing is written to the response. *)
Lemma handleServe_stat_error
  (next : Handler) (e : Env) (r : Request) (st : State) (err : Errno) :
  stat e (List.length (calls st)) (filepath.Clean (URL_Path r)) = inl err ->
  os_IsNotExist err = false ->
  handleServe next e r st
  = Panic "runtime error: invalid memory address or nil pointer dereference"
      (setCalls st (calls st ++ [Stat (filepath.Clean (URL_Path r))])%list (w st)).
Proof.
  intros Hstat Herr.
  unfold handleServe, bind. rewrite os_Stat_run, Hstat. simpl.
  rewrite Herr. reflexivity.
Qed.

(** C1.  [docs/readme.txt] is a file, so [os.Stat] of
    [docs/readme.txt/x] fails with ENOTDIR, which is not "does not
    exist".  The request is not answered with status 500: the handler
    panics, and no header and no body is written. *)
Theorem stat_error_panics :
  let e := treeEnv "/srv/www" specTree in
  let o := server "/srv/www" e (get "/docs/readme.txt/x") start in
  stat e 0 "docs/readme.txt/x" = inl ENOTDIR
  /\ os_IsNotExist ENOTDIR = false
  /\ panicked o = true
  /\ calls (final o) = [Stat "docs/readme.txt/x"]
  /\ status (w (final o)) = None
  /\ body (w (final o)) = [].
Proof. vm_compute. repeat split. Qed.

(** The same for a path below a directory that may not be searched. *)
Example stat_error_panics_EACCES :
  let e := treeEnv "/srv/www" siteTree in
  let o := server "/srv/www" e (get "/private/key") start in
  stat e 0 "private/key" = inl EACCES
  /\ panicked o = true
  /\ status (w (final o)) = None.
Proof. vm_compute. repeat split. Qed.

(** The same through the whole chain of handlers that [main] builds:
    the middleware logs the request, and the one call is the
    [os.Stat]. *)
Lemma server_not_exist (wd : string) (e : Env) (p : string) (st : State) :
  stat e (List.length (calls st)) (filepath.Clean p) = inl ENOENT ->
  w st = fresh ->
  server wd e (get ("/" ++ p)) st
  = Return tt
      {| vars := vars st;
         stdlog := (stdlog st
                    ++ [(abs (getwd e) (filepath.Clean p) (Root (vars st))
                         ++ " " ++ RemoteAddr (get ("/" ++ p)))%string])%list;
         calls := (calls st ++ [Stat (filepath.Clean p)])%list;
         w := {| status := Some 404;
                 body := if writeOK e 0
                         then [Plain ("404 page not found" ++ nl)] else [];
                 writes := 1 |} |}.
Proof.
  intros Hstat Hw. unfold server, main. cbn [fst].
  unfold http_StripPrefix.
  change (strings.TrimPrefix (URL_Path (get ("/" ++ p))) "/")
    with (strings.TrimPrefix ("/" ++ p) "/").
  rewrite (TrimPrefix_append "/" p).
  change (URL_Path (get ("/" ++ p))) with (String "/" p).
  assert (Hlt : (String.length p <? String.length (String "/" p))%nat = true)
    by (apply Nat.ltb_lt; simpl; lia).
  rewrite Hlt.
  unfold loggingMiddleware, bind, getRoot, log_Println, handleServe, bind.
  cbn [URL_Path RemoteAddr]. rewrite os_Stat_run. cbn [calls].
  rewrite Hstat. cbn [os_IsNotExist].
  unfold http_NotFound. rewrite http_Error_fresh by exact Hw. reflexivity.
Qed.

(** ** Witnesses on the served tree *)

Lemma handleDirectory_read_error_witness :
  handleDirectory (treeEnv "/srv/www" siteTree) (get "private") "private" start
  = Return tt
      {| vars := vars start; stdlog := stdlog start;
         calls := (calls start ++ [ReadDir "private"])%list;
         w := {| status := Some 500;
                 body := [Plain ("Internal Server Error" ++ nl)];
                 writes := 1 |} |}.
Proof.
  apply (@handleDirectory_read_error (treeEnv "/srv/www" siteTree)
           (get "private") "private" start EACCES); reflexivity.
Defined.


Lemma handleServe_directory_listing_witness :
  handleServe (http_FileServer "/srv/www") (treeEnv "/srv/www" specTree)
              (get "") start
  = Return tt
      {| vars := vars start; stdlog := stdlog start;
         calls := [Stat "."; ReadDir "."; ReadDir ".";
                   ExecuteTemplate
                     {| Listing.Root := ""; Listing.Dir := ".";
                        Listing.Directories :=
                          [{| Name := "docs"; Size := 4096; IsDir := true |}];
                        Listing.Files := [] |}];
         w := {| status := Some 200;
                 body := [Text Head; TitleVal "/"; Text Body; Text ListOpen;
                          Text ItemOpen; HrefVal "/docs"; Text ItemMid;
                          NameVal "docs"; Text ItemClose;
                          Text Between; Text Tail];
                 writes := 11 |} |}.
Proof.
  apply (@handleServe_directory_listing (http_FileServer "/srv/www")
           (treeEnv "/srv/www" specTree) (get "") start
           {| Name := "."; Size := 4096; IsDir := true |}
           [{| Name := ".hidden"; Size := 0; IsDir := false |};
            {| Name := "docs"; Size := 4096; IsDir := true |}]);
    reflexivity.
Defined.

(** ** A failure of the template *)

Lemma WriteHeader_written (code c : nat) (st : State) :
  status (w st) = Some c ->
  WriteHeader code st = Return tt st.
Proof.
  intros Hs. destruct st as [v l cs [s b n]]; simpl in *; subst s. reflexivity.
Qed.

Lemma Write_status (e : Env) (p : Piece) (st : State) :
  exists failed st',
    Write e p st = Return failed st'
    /\ status (w st') = sent (status (w st))
    /\ vars st' = vars st.
Proof.
  destruct st as [v l cs [s b n]].
  unfold Write, WriteHeader, withWriter, bind. simpl.
  do 2 eexists. split; [reflexivity|]. simpl. destruct s; split; reflexivity.
Qed.

Lemma sent_sent (s : option nat) : sent (sent s) = sent s.
Proof. destruct s; reflexivity. Qed.

Lemma writeAll_status (e : Env) (ps : list Piece) (st : State) :
  ps <> [] ->
  exists err st',
    writeAll e ps st = Return err st'
    /\ status (w st') = sent (status (w st)).
Proof.
  revert st; induction ps as [|p ps IH]; intros st Hne; [contradiction|].
  simpl. unfold bind.
  destruct (Write_status e p st) as (failed & st1 & Hrun & Hst & _).
  rewrite Hrun. destruct failed.
  - do 2 eexists. split; [reflexivity | exact Hst].
  - destruct ps as [|q ps].
    + do 2 eexists. split; [reflexivity | exact Hst].
    + destruct (IH st1) as (err & st2 & Hrun2 & Hst2); [discriminate|].
      rewrite Hrun2. do 2 eexists. split; [reflexivity|].
      now rewrite Hst2, Hst, sent_sent.
Qed.

Lemma http_Error_written (e : Env) (error : string) (code c : nat) (st : State) :
  status (w st) = Some c ->
  exists st', http_Error e error code st = Return tt st'
              /\ status (w st') = Some c.
Proof.
  intros Hs. unfold http_Error, bind.
  rewrite (WriteHeader_written code st Hs).
  destruct (Write_status e (Plain (error ++ String (ascii_of_nat 10) "")) st)
    as (failed & st1 & Hrun & Hst & _).
  rewrite Hrun. eexists. split; [reflexivity|]. now rewrite Hst, Hs.
Qed.

(** Once the children of the directory are read, the response of
    [handleDirectory] has status 200, whether the template fails or
    not: the template writes to the response itself, and its first
    write sends the header. *)
Lemma handleDirectory_status
  (e : Env) (r : Request) (path : string) (st : State)
  (contents : list FileInfo) :
  readdir e (List.length (calls st)) path = inr contents ->
  status (w st) = None ->
  status (w (final (handleDirectory e r path st))) = Some 200.
Proof.
  intros Hread Hs.
  unfold handleDirectory, bind. rewrite ioutil_ReadDir_run, Hread.
  destruct (splitFiles (filterFiles contents) (fun fi => IsDir fi))
    as [directories files].
  unfold getRoot. cbn [setCalls vars].
  unfold Template_ExecuteTemplate.
  change (String.eqb "index.html" "index.html") with true. cbv iota.
  unfold bind, call. cbn [setCalls vars stdlog calls w].
  match goal with |- context [writeAll e ?ps ?s] =>
    destruct (@writeAll_status e ps s) as (err & st1 & Hrun & Hst);
      [unfold templateOutput; discriminate|]
  end.
  rewrite Hrun. cbn [w] in Hst. rewrite Hs in Hst.
  destruct err as [msg|]; [|exact Hst].
  unfold log_Println.
  match goal with |- context [http_Error e ?err ?code ?s] =>
    destruct (@http_Error_written e err code 200 s) as (st2 & Hrun2 & Hst2);
      [exact Hst|]
  end.
  rewrite Hrun2. exact Hst2.
Qed.

(** C8.  The connection takes three writes and fails.  The template
    has then written the head of the page, the title and the text
    after it; the failure is logged, and the response keeps status 200
    and the part of the page that was written. *)
Theorem template_failure_keeps_200 :
  let e := lossy 3 (treeEnv "/srv/www" specTree) in
  let st := final (server "/srv/www" e (get "/docs") start) in
  stdlog st = ["/docs 127.0.0.1:50000"; "write error"]
  /\ status (w st) = Some 200
  /\ body (w st) = [Text Head; TitleVal "/docs"; Text Body].
Proof. vm_compute. repeat split. Qed.

(** ** The package-level [Root] *)

(** C3.  Started in [/srv/www], [main] leaves the package-level [Root]
    empty: the working directory goes to the variable of [main] that
    the file server is built from.  The listing of the first request is
    built with the empty [Root]. *)
Theorem main_leaves_Root_empty :
  let e := treeEnv "/srv/www" specTree in
  Root (vars (snd (main (Some "/srv/www") None start))) = ""
  /\ Root (vars (snd (main (Some "/srv/www") None start))) <> "/srv/www"
  /\ calls (final (server "/srv/www" e (get "/docs/readme.txt") start))
     = [Stat "docs/readme.txt";
        FileServer "/srv/www" (get "docs/readme.txt")]
  /\ calls (run (Some "/srv/www") [(e, get "/")])
     = [Stat "."; ReadDir "."; ReadDir ".";
        ExecuteTemplate
          {| Listing.Root := ""; Listing.Dir := ".";
             Listing.Directories :=
               [{| Name := "docs"; Size := 4096; IsDir := true |}];
             Listing.Files := [] |}].
Proof. vm_compute. repeat split. discriminate. Qed.

Lemma keeps_ret {A} (a : A) (R : A -> Prop) : R a -> keeps (ret a) R.
Proof. intros Ha st Hst. split; [exact Hst | exact Ha]. Qed.

Lemma keeps_any {A} (m : M A) (R : A -> Prop) : keeps m R -> keeps m any.
Proof.
  intros Hm st Hst. destruct (Hm st Hst) as [Hi _]. split; [exact Hi|].
  destruct (m st); exact I.
Qed.

Lemma keeps_bind {A B} (m : M A) (k : A -> M B) (R : A -> Prop) (R' : B -> Prop) :
  keeps m R -> (forall a, R a -> keeps (k a) R') -> keeps (bind m k) R'.
Proof.
  intros Hm Hk st Hst. unfold bind.
  destruct (Hm st Hst) as [Hi Hr].
  destruct (m st) as [a st'|msg st']; simpl in *.
  - exact (Hk a Hr st' Hi).
  - split; [exact Hi | exact I].
Qed.

Lemma keeps_panic {A} (msg : string) (R : A -> Prop) : keeps (panic msg) R.
Proof. intros st Hst. split; [exact Hst | exact I]. Qed.

Lemma keeps_getRoot : keeps getRoot (fun root => root = "").
Proof. intros st Hst. split; [exact Hst | exact (proj1 Hst)]. Qed.

Lemma keeps_clock : keeps clock any.
Proof. intros st Hst. split; [exact Hst | exact I]. Qed.

Lemma keeps_call (c : Call) :
  match c with
  | ExecuteTemplate data => Listing.Root data = ""
  | _ => True
  end ->
  keeps (call c) any.
Proof.
  intros Hc st [HR Hcalls]. split; [|exact I]. split; [exact HR|].
  simpl. intros data Hin. apply in_app_or in Hin as [Hin|[Hin|[]]].
  - now apply Hcalls.
  - subst c. exact Hc.
Qed.

Lemma keeps_withWriter (f : ResponseWriter -> ResponseWriter) :
  keeps (withWriter f) any.
Proof. intros st Hst. split; [exact Hst | exact I]. Qed.

Lemma keeps_log_Println (line : string) : keeps (log_Println line) any.
Proof. intros st Hst. split; [exact Hst | exact I]. Qed.

Lemma keeps_WriteHeader (code : nat) : keeps (WriteHeader code) any.
Proof. apply keeps_withWriter. Qed.

Lemma keeps_Write (e : Env) (p : Piece) : keeps (Write e p) any.
Proof.
  unfold Write. eapply keeps_bind; [apply keeps_WriteHeader|].
  intros _ _ st Hst. split; [exact Hst | exact I].
Qed.

#[local] Hint Resolve keeps_ret keeps_panic keeps_clock keeps_withWriter
  keeps_log_Println keeps_WriteHeader keeps_Write : keeps.

Lemma keeps_http_Error (e : Env) (error : string) (code : nat) :
  keeps (http_Error e error code) any.
Proof.
  unfold http_Error.
  eapply keeps_bind; [apply keeps_WriteHeader|]. intros _ _.
  eapply keeps_bind; [apply keeps_Write|]. intros _ _.
  now apply keeps_ret.
Qed.

Lemma keeps_os_Stat (e : Env) (path : string) : keeps (os_Stat e path) any.
Proof.
  unfold os_Stat.
  eapply keeps_bind; [apply keeps_clock|]. intros n _.
  eapply keeps_bind; [now apply keeps_call|]. intros _ _.
  destruct (stat e n path); now apply keeps_ret.
Qed.

Lemma keeps_ioutil_ReadDir (e : Env) (path : string) :
  keeps (ioutil_ReadDir e path) any.
Proof.
  unfold ioutil_ReadDir.
  eapply keeps_bind; [apply keeps_clock|]. intros n _.
  eapply keeps_bind; [now apply keeps_call|]. intros _ _.
  destruct (readdir e n path); now apply keeps_ret.
Qed.

Lemma keeps_writeAll (e : Env) (ps : list Piece) : keeps (writeAll e ps) any.
Proof.
  induction ps as [|p ps IH]; simpl; [now apply keeps_ret|].
  eapply keeps_bind; [apply keeps_Write|]. intros failed _.
  destruct failed; [now apply keeps_ret | exact IH].
Qed.

Lemma keeps_Template_ExecuteTemplate (e : Env) (name : string) (data : Listing.t) :
  Listing.Root data = "" ->
  keeps (Template_ExecuteTemplate e name data) any.
Proof.
  intros Hroot. unfold Template_ExecuteTemplate.
  destruct (String.eqb name "index.html"); [|now apply keeps_ret].
  eapply keeps_bind; [now apply keeps_call|]. intros _ _.
  apply keeps_writeAll.
Qed.

#[local] Hint Resolve keeps_http_Error keeps_os_Stat keeps_ioutil_ReadDir
  keeps_writeAll : keeps.

Lemma keeps_handleDirectory (e : Env) (r : Request) (path : string) :
  keeps (handleDirectory e r path) any.
Proof.
  unfold handleDirectory.
  eapply keeps_bind; [apply keeps_ioutil_ReadDir|]. intros [contents err] _.
  destruct err; [auto with keeps|].
  destruct (splitFiles (filterFiles contents) (fun fi => IsDir fi))
    as [directories files].
  eapply keeps_bind; [apply keeps_getRoot|]. intros root Hroot.
  eapply keeps_bind; [now apply keeps_Template_ExecuteTemplate|].
  intros [msg|] _; [|now apply keeps_ret].
  eapply keeps_bind; auto with keeps.
Qed.

Lemma keeper_handleServe (next : Handler) :
  keeper next -> keeper (handleServe next).
Proof.
  intros Hnext e r. unfold handleServe.
  eapply keeps_bind; [apply keeps_os_Stat|]. intros [info err] _.
  destruct (match err with Some err0 => os_IsNotExist err0 | None => false end).
  - apply keeps_http_Error.
  - eapply keeps_bind with (R := any).
    + destruct info; [now apply keeps_ret | apply keeps_panic].
    + intros isDir _. destruct isDir; [|apply Hnext].
      eapply keeps_bind; [apply keeps_ioutil_ReadDir|]. intros _ _.
      apply keeps_handleDirectory.
Qed.

Lemma keeper_loggingMiddleware (next : Handler) :
  keeper next -> keeper (loggingMiddleware next).
Proof.
  intros Hnext e r. unfold loggingMiddleware.
  eapply keeps_bind; [apply keeps_getRoot|]. intros root _.
  eapply keeps_bind; [apply keeps_log_Println|]. intros _ _. apply Hnext.
Qed.

Lemma keeper_http_StripPrefix (prefix : string) (h : Handler) :
  keeper h -> keeper (http_StripPrefix prefix h).
Proof.
  intros Hh. unfold http_StripPrefix.
  destruct prefix as [|c prefix]; [exact Hh|]. intros e r.
  destruct (String.length _ <? String.length _)%nat; [apply Hh|].
  apply keeps_http_Error.
Qed.

Lemma keeper_http_FileServer (root : string) : keeper (http_FileServer root).
Proof.
  intros e r. unfold http_FileServer.
  eapply keeps_bind; [now apply keeps_call|]. intros _ _.
  apply keeps_withWriter.
Qed.

Lemma inv_start : inv start.
Proof. split; [reflexivity | intros data []]. Qed.

Lemma inv_serveRequest (mux : Handler) (st : State) (er : Env * Request) :
  keeper mux -> inv st -> inv (serveRequest mux st er).
Proof.
  intros Hmux Hst. unfold serveRequest.
  apply (Hmux (fst er) (snd er)). exact Hst.
Qed.

Lemma inv_run (wd : option string) (reqs : list (Env * Request)) :
  inv (run wd reqs).
Proof.
  unfold run, main. destruct wd as [Root'|]; [|exact inv_start].
  assert (Hmux : keeper (http_StripPrefix "/"
            (loggingMiddleware (handleServe (http_FileServer Root'))))).
  { apply keeper_http_StripPrefix, keeper_loggingMiddleware,
      keeper_handleServe, keeper_http_FileServer. }
  revert Hmux. generalize (http_StripPrefix "/"
            (loggingMiddleware (handleServe (http_FileServer Root')))).
  intros mux Hmux. generalize inv_start. generalize start.
  induction reqs as [|er reqs IH]; intros st Hst; simpl; [exact Hst|].
  apply IH. now apply inv_serveRequest.
Qed.

Lemma Abs_empty (cwd : string) :
  cwd <> "" -> filepath.Abs (Some cwd) "" = (filepath.Clean cwd, false).
Proof.
  intros Hc. unfold filepath.Abs. simpl. f_equal.
  destruct cwd as [|c cwd]; [contradiction|].
  unfold filepath.Join.
  change (String c cwd ++ "/" ++ "") with (String c cwd ++ "/").
  now rewrite Clean_trailing_separator by discriminate.
Qed.

(** C4.  However the process is started and whatever requests it
    serves, the package-level [Root] is the empty string afterwards,
    every listing given to the template has the empty [Root], and the
    logging middleware calls [abs] with the empty root.  In the
    working directory [cwd], [filepath.Abs] of the empty root is the
    cleaned [cwd], which is [cwd] itself when [cwd] is a clean path. *)
Theorem Root_stays_empty (wd : option string) (reqs : list (Env * Request)) :
  let st := run wd reqs in
  Root (vars st) = ""
  /\ (forall data,
        In (ExecuteTemplate data) (calls st) -> Listing.Root data = "")
  /\ (forall (next : Handler) (e : Env) (r : Request) (st' : State),
        vars st' = vars st ->
        loggingMiddleware next e r st'
        = (log_Println (abs (getwd e) (filepath.Clean (URL_Path r)) ""
                        ++ " " ++ RemoteAddr r) ;;;
           next e r) st')
  /\ (forall cwd,
        cwd <> "" ->
        filepath.Abs (Some cwd) "" = (filepath.Clean cwd, false))
  /\ (forall cwd,
        filepath.Clean cwd = cwd ->
        filepath.Abs (Some cwd) "" = (cwd, false)).
Proof.
  intros st. destruct (inv_run wd reqs) as [HR Hcalls]. fold st in HR, Hcalls.
  repeat split.
  - exact HR.
  - exact Hcalls.
  - intros next e r st' Hv. unfold loggingMiddleware, bind, getRoot.
    now rewrite Hv, HR.
  - apply Abs_empty.
  - intros cwd Hc. rewrite Abs_empty, Hc; [reflexivity|].
    intros ->. discriminate.
Qed.

Lemma Root_stays_empty_witness :
  filepath.Abs (Some "/srv/www") "" = ("/srv/www", false)
  /\ Listing.Root {| Listing.Root := ""; Listing.Dir := ".";
                     Listing.Directories :=
                       [{| Name := "docs"; Size := 4096; IsDir := true |}];
                     Listing.Files := [] |} = "".
Proof.
  pose proof (Root_stays_empty (Some "/srv/www")
                [(treeEnv "/srv/www" specTree, get "/")]) as H.
  cbv zeta in H. destruct H as (_ & Hlist & _ & _ & Habs).
  split.
  - apply Habs. reflexivity.
  - apply Hlist. vm_compute. right. right. right. left. reflexivity.
Defined.

(** ** The fuel of [doPrintf] *)

Lemma shorter_refl (a : string) : shorter a a.
Proof. unfold shorter; lia. Qed.

Lemma shorter_trans (a b c : string) : shorter a b -> shorter b c -> shorter a c.
Proof. unfold shorter; lia. Qed.

Lemma shorter_tail (c : ascii) (a b : string) :
  shorter a b -> shorter a (String c b).
Proof. unfold shorter; simpl; lia. Qed.

Lemma shorter_empty (a : string) : shorter "" a.
Proof. unfold shorter; simpl; lia. Qed.

#[local] Hint Resolve shorter_refl shorter_tail shorter_empty : fuel.

Lemma skipFlags_shorter (s : string) : shorter (fmt.skipFlags s) s.
Proof.
  induction s as [|c s IH]; simpl; [auto with fuel|].
  destruct (fmt.isFlag c); auto with fuel.
Qed.

Lemma parsenum_shorter (s : string) (num : N) (isnum b : bool) (s' : string) :
  fmt.parsenum s num isnum = Some (b, s') -> shorter s' s.
Proof.
  revert num isnum; induction s as [|c s IH]; intros num isnum; simpl.
  - intros H; inversion H; auto with fuel.
  - destruct (fmt.isDigit c).
    + destruct (fmt.tooLarge num); [discriminate|].
      intros H. apply IH in H. auto with fuel.
    + intros H; inversion H; auto with fuel.
Qed.

Lemma untilBracket_shorter (s a b : string) :
  fmt.untilBracket s = Some (a, b) -> shorter b s.
Proof.
  revert a b; induction s as [|c s IH]; intros a b; simpl; [discriminate|].
  destruct (Ascii.eqb c "]").
  - intros H; inversion H; subst; auto with fuel.
  - destruct (fmt.untilBracket s) as [[a' b']|]; [|discriminate].
    intros H; inversion H; subst. specialize (IH a' b eq_refl). auto with fuel.
Qed.

Lemma parseArgNumber_shorter (s : string) :
  shorter (fst (fmt.parseArgNumber s)) s.
Proof.
  unfold fmt.parseArgNumber.
  destruct (String.length s <? 2)%nat; [simpl; auto with fuel|].
  destruct (fmt.untilBracket s) as [[inner rest]|] eqn:Hu; [|simpl; auto with fuel].
  apply untilBracket_shorter in Hu.
  destruct (fmt.parsenum inner 0 false) as [[[] []]|]; exact Hu.
Qed.

Lemma after_shorter (c : ascii) (s s' : string) :
  fmt.after c s = Some s' -> shorter s' s.
Proof.
  destruct s as [|d s]; simpl; [discriminate|].
  destruct (Ascii.eqb d c); [|discriminate].
  intros H; inversion H; subst; auto with fuel.
Qed.

Lemma argNumber_shorter (s : string) (good : bool) :
  shorter (fst (fst (fmt.argNumber s good))) s.
Proof.
  unfold fmt.argNumber.
  destruct (fmt.after "[" s) as [s'|] eqn:Ha; [|simpl; auto with fuel].
  apply after_shorter in Ha.
  pose proof (parseArgNumber_shorter s') as H.
  destruct (fmt.parseArgNumber s') as [rest ok]. simpl in *.
  eapply shorter_trans; eassumption.
Qed.

Lemma decodeVerb_shorter (c : ascii) (s : string) :
  shorter (snd (fmt.decodeVerb c s)) s.
Proof.
  unfold fmt.decodeVerb.
  repeat match goal with
         | |- context [if ?b then _ else _] => destruct b
         | |- context [match ?x with EmptyString => _ | String _ _ => _ end] =>
             destruct x
         end; simpl; auto 6 with fuel.
Qed.

Lemma width_shorter (s : string) (afterIndex good : bool) :
  shorter (snd (fst (fst (fmt.width s afterIndex good)))) s.
Proof.
  unfold fmt.width.
  destruct (fmt.after "*" s) as [s'|] eqn:Ha.
  - simpl. now apply after_shorter in Ha.
  - destruct (fmt.parsenum s 0 false) as [[b s']|] eqn:Hp; simpl.
    + now apply parsenum_shorter in Hp.
    + auto with fuel.
Qed.

Lemma precision_shorter (s : string) (afterIndex good : bool) :
  shorter (snd (fst (fst (fmt.precision s afterIndex good)))) s.
Proof.
  unfold fmt.precision.
  destruct (fmt.after "." s) as [s1|] eqn:Ha; [|simpl; auto with fuel].
  apply after_shorter in Ha.
  pose proof (argNumber_shorter s1 (good && negb afterIndex)) as H1.
  destruct (fmt.argNumber s1 (good && negb afterIndex)) as [[s2 ai] g].
  simpl in H1.
  destruct (fmt.after "*" s2) as [s3|] eqn:Hb.
  - simpl. apply after_shorter in Hb.
    eapply shorter_trans; [exact Hb|]. eapply shorter_trans; eassumption.
  - destruct (fmt.parsenum s2 0 false) as [[b s3]|] eqn:Hp; simpl.
    + apply parsenum_shorter in Hp.
      eapply shorter_trans; [exact Hp|]. eapply shorter_trans; eassumption.
    + auto with fuel.
Qed.

Lemma verb_shorter (out s : string) (good : bool) :
  shorter (snd (fmt.verb out s good)) s.
Proof.
  unfold fmt.verb. destruct s as [|c s]; [simpl; auto with fuel|].
  pose proof (decodeVerb_shorter c s) as H.
  destruct (fmt.decodeVerb c s) as [v rest]. simpl in H.
  destruct (String.eqb v "%"); [simpl; auto with fuel|].
  destruct (negb good); simpl; auto with fuel.
Qed.

(** The verb takes bytes of the format and gives none back. *)
Lemma doVerb_shorter (s : string) : shorter (snd (fmt.doVerb s)) s.
Proof.
  unfold fmt.doVerb.
  pose proof (skipFlags_shorter s) as H0.
  pose proof (argNumber_shorter (fmt.skipFlags s) true) as H1.
  destruct (fmt.argNumber (fmt.skipFlags s) true) as [[s1 ai1] g1].
  pose proof (width_shorter s1 ai1 g1) as H2.
  destruct (fmt.width s1 ai1 g1) as [[[w1 s2] ai2] g2].
  pose proof (precision_shorter s2 ai2 g2) as H3.
  destruct (fmt.precision s2 ai2 g2) as [[[w2 s3] ai3] g3].
  simpl in H1, H2, H3.
  assert (H4 : forall s4 ai4 g4,
             (if ai3 then (s3, ai3, g3) else fmt.argNumber s3 g3) = (s4, ai4, g4) ->
             shorter s4 s3).
  { intros s4 ai4 g4 E. destruct ai3.
    - inversion E; subst; auto with fuel.
    - pose proof (argNumber_shorter s3 g3) as H. rewrite E in H. exact H. }
  destruct (if ai3 then (s3, ai3, g3) else fmt.argNumber s3 g3)
    as [[s4 ai4] g4].
  specialize (H4 s4 ai4 g4 eq_refl).
  eapply shorter_trans; [apply verb_shorter|].
  repeat (eapply shorter_trans; [eassumption|]). apply shorter_refl.
Qed.

(** More fuel than the length of the format changes nothing: the
    length is fuel enough. *)
Lemma doPrintf_fuel2 (n : nat) :
  forall (format : string) (fuel1 fuel2 : nat),
    String.length format <= n -> n <= fuel1 -> n <= fuel2 ->
    fmt.doPrintf fuel1 format = fmt.doPrintf fuel2 format.
Proof.
  induction n as [|n IH]; intros format fuel1 fuel2 Hlen H1 H2.
  - destruct format; [|simpl in Hlen; lia]. destruct fuel1, fuel2; reflexivity.
  - destruct format as [|c format]; [destruct fuel1, fuel2; reflexivity|].
    destruct fuel1 as [|fuel1]; [lia|]. destruct fuel2 as [|fuel2]; [lia|].
    simpl in Hlen. simpl.
    destruct (Ascii.eqb c "%").
    + pose proof (doVerb_shorter format) as Hs.
      destruct (fmt.doVerb format) as [out rest]. simpl in Hs.
      unfold shorter in Hs. f_equal. apply IH; lia.
    + f_equal. apply IH; lia.
Qed.

Lemma doPrintf_fuel (format : string) (fuel : nat) :
  String.length format <= fuel ->
  fmt.doPrintf fuel format = fmt.Sprintf format.
Proof.
  intros H. unfold fmt.Sprintf.
  apply (@doPrintf_fuel2 (String.length format)); lia.
Qed.

(** ** The loop of [filepath.Clean] over the bytes of the path *)

Example bytewise_Clean_1 : bytewise.Clean "abc//def//ghi" = "abc/def/ghi".
Proof. reflexivity. Qed.
Example bytewise_Clean_2 : bytewise.Clean "/abc/def/../../.." = "/".
Proof. reflexivity. Qed.
Example bytewise_Clean_3 :
  bytewise.Clean "abc/def/../../../ghi/jkl/../../../mno" = "../../mno".
Proof. reflexivity. Qed.
Example bytewise_Clean_4 : bytewise.Clean "abc/../../././../def" = "../../def".
Proof. reflexivity. Qed.
Example bytewise_Clean_5 : bytewise.Clean "//abc//" = "/abc".
Proof. reflexivity. Qed.
Example bytewise_Clean_6 : bytewise.Clean "abc/def/../.." = ".".
Proof. reflexivity. Qed.
Example bytewise_Clean_7 : bytewise.Clean "/../abc/./d/.." = "/abc".
Proof. reflexivity. Qed.
Example bytewise_Clean_8 : bytewise.Clean "..a/.b/c../..." = "..a/.b/c../...".
Proof. reflexivity. Qed.

Lemma outOf_cons (r : bool) (e : string) (rest : list string) :
  outOf r (e :: rest) = bytewise.pushAll e (sepOut r rest).
Proof. destruct rest; reflexivity. Qed.

Lemma pushAll_length (s acc : string) :
  String.length (bytewise.pushAll s acc) = String.length s + String.length acc.
Proof.
  revert acc; induction s as [|c s IH]; intros acc; simpl; [reflexivity|].
  rewrite IH. simpl. lia.
Qed.

Lemma pushAll_pushAll (s x acc : string) :
  bytewise.pushAll (bytewise.pushAll s x) acc = bytewise.pushAll x (s ++ acc).
Proof.
  revert x; induction s as [|c s IH]; intros x; simpl; [reflexivity|].
  now rewrite IH.
Qed.

Lemma copyElement_spec (p out : string) :
  bytewise.copyElement p out = (bytewise.pushAll (takeElem p) out, dropElem p).
Proof.
  revert out; induction p as [|c p IH]; intros out; simpl; [reflexivity|].
  destruct (filepath.IsPathSeparator c); [reflexivity | apply IH].
Qed.

Lemma dropElem_length (p : string) : String.length (dropElem p) <= String.length p.
Proof.
  induction p as [|c p IH]; simpl; [lia|].
  destruct (filepath.IsPathSeparator c); simpl; lia.
Qed.

Lemma elements_take_drop (p : string) :
  filepath.elements p = takeElem p :: tl (filepath.elements (dropElem p)).
Proof.
  induction p as [|c p IH]; simpl; [reflexivity|].
  destruct (filepath.IsPathSeparator c) eqn:Hc; simpl.
  - now rewrite Hc.
  - now rewrite IH.
Qed.

Lemma elements_dropElem (p : string) :
  filepath.elements (dropElem p) = "" :: tl (filepath.elements (dropElem p)).
Proof.
  induction p as [|c p IH]; simpl; [reflexivity|].
  destruct (filepath.IsPathSeparator c) eqn:Hc; [|exact IH].
  simpl. now rewrite Hc.
Qed.

(** The loop of [Clean] over the elements takes the first element and
    goes on with what follows it. *)
Lemma cleanLoop_take_drop (r : bool) (p : string) (st : filepath.lazybuf) :
  fold_left (filepath.cleanElem r) (filepath.elements p) st
  = fold_left (filepath.cleanElem r) (filepath.elements (dropElem p))
              (filepath.cleanElem r st (takeElem p)).
Proof.
  rewrite (elements_take_drop p), (elements_dropElem p). reflexivity.
Qed.

Lemma endOfElement_takeElem (p : string) :
  bytewise.endOfElement p = String.eqb (takeElem p) "".
Proof.
  destruct p as [|c p]; simpl; [reflexivity|].
  destruct (filepath.IsPathSeparator c); reflexivity.
Qed.

Lemma takeElem_empty (p : string) : takeElem p = "" -> dropElem p = p.
Proof.
  destruct p as [|c p]; simpl; [reflexivity|].
  destruct (filepath.IsPathSeparator c); [reflexivity | discriminate].
Qed.

Lemma takeElem_noSlash (p : string) : noSlash (takeElem p).
Proof.
  unfold noSlash. induction p as [|c p IH]; simpl; [reflexivity|].
  destruct (filepath.IsPathSeparator c) eqn:Hc; simpl; [reflexivity|].
  unfold filepath.IsPathSeparator, filepath.Separator in Hc. now rewrite Hc.
Qed.

(** The test of Go for a [..] element. *)
Lemma dotdot_test (p1 : string) :
  match p1 with
  | String d p2 => Ascii.eqb d "." && bytewise.endOfElement p2
  | EmptyString => false
  end = String.eqb (takeElem p1) ".".
Proof.
  destruct p1 as [|d p2]; simpl; [reflexivity|].
  destruct (filepath.IsPathSeparator d) eqn:Hd.
  - unfold filepath.IsPathSeparator, filepath.Separator in Hd.
    apply Ascii.eqb_eq in Hd. subst d. reflexivity.
  - simpl. now rewrite endOfElement_takeElem.
Qed.

Lemma dotdot_rest (p1 : string) :
  String.eqb (takeElem p1) "." = true -> dropElem p1 = strings.drop 1 p1.
Proof.
  destruct p1 as [|d p2]; simpl; [discriminate|].
  destruct (filepath.IsPathSeparator d); [discriminate|]. simpl.
  intros H. apply andb_prop in H as [_ H]. apply String.eqb_eq in H.
  now apply takeElem_empty.
Qed.

Lemma outOf_length_cons (r : bool) (e : string) (rest : list string) :
  nonEmpty e ->
  String.length (outOf r rest) < String.length (outOf r (e :: rest)).
Proof.
  intros He. rewrite outOf_cons, pushAll_length.
  assert (0 < String.length e) by (destruct e; [contradiction | simpl; lia]).
  destruct rest; simpl; lia.
Qed.

Lemma outOf_length_app (r : bool) (top l : list string) :
  Forall nonEmpty top ->
  String.length (outOf r l) <= String.length (outOf r (top ++ l)).
Proof.
  induction 1 as [|e top He Htop IH]; simpl app; [lia|].
  pose proof (outOf_length_cons r (top ++ l) He). lia.
Qed.

Lemma base_length (r : bool) : String.length (base r) = if r then 1 else 0.
Proof. destruct r; reflexivity. Qed.

(** "add slash if needed": a separator is written before a new element
    unless the buffer holds no element yet. *)
Lemma slash_if_needed (r : bool) (written : list string) :
  Forall nonEmpty written ->
  (if r && negb (Nat.eqb (String.length (outOf r written)) 1)
      || negb r && negb (Nat.eqb (String.length (outOf r written)) 0)
   then String "/" (outOf r written) else outOf r written)
  = sepOut r written.
Proof.
  intros Hall. destruct written as [|e rest].
  - destruct r; reflexivity.
  - inversion Hall as [|? ? He Hrest]; subst.
    pose proof (outOf_length_cons r rest He) as Hlt.
    pose proof (@outOf_length_app r rest [] Hrest) as Hle.
    rewrite app_nil_r in Hle. simpl outOf in Hle at 1.
    rewrite base_length in Hle.
    unfold sepOut.
    destruct r.
    + assert (H1 : Nat.eqb (String.length (outOf true (e :: rest))) 1 = false)
        by (apply Nat.eqb_neq; lia).
      rewrite H1. reflexivity.
    + assert (H0 : Nat.eqb (String.length (outOf false (e :: rest))) 0 = false)
        by (apply Nat.eqb_neq; lia).
      rewrite H0. reflexivity.
Qed.

Lemma backtrackLoop_pushAll (t : string) (popped : ascii) (tailbuf : string) (dotdot : nat) :
  noSlash t ->
  filepath.IsPathSeparator popped = false ->
  dotdot <= String.length tailbuf ->
  bytewise.backtrackLoop popped (bytewise.pushAll t tailbuf) dotdot
  = bytewise.backtrackLoop (match t with String c _ => c | EmptyString => popped end)
                           tailbuf dotdot.
Proof.
  revert popped tailbuf. induction t as [|c t IH]; intros popped tailbuf Ht Hp Hd.
  - reflexivity.
  - unfold noSlash in Ht. simpl in Ht. apply orb_false_iff in Ht as [Hc Ht].
    simpl bytewise.pushAll. rewrite IH.
    + simpl bytewise.backtrackLoop at 1.
      assert (Hlt : Nat.ltb dotdot (S (String.length tailbuf)) = true)
        by (apply Nat.ltb_lt; lia).
      rewrite Hlt.
      assert (Hnp : filepath.IsPathSeparator
                (match t with String c0 _ => c0 | EmptyString => popped end) = false).
      { destruct t as [|c0 t0]; [exact Hp|].
        simpl in Ht. apply orb_false_iff in Ht as [Hc0 _]. exact Hc0. }
      rewrite Hnp. reflexivity.
    + exact Ht.
    + exact Hp.
    + simpl. lia.
Qed.

(** A name at the end of the buffer, taken alone, is never empty, so
    [out.w--] finds a byte of it. *)
Lemma pushAll_head (t : string) (acc : string) :
  t <> "" ->
  exists l t0, t = t0 ++ String l "" /\ bytewise.pushAll t acc
                                         = String l (bytewise.pushAll t0 acc).
Proof.
  revert acc. induction t as [|c t IH]; intros acc Ht; [contradiction|].
  destruct t as [|d t].
  - exists c, "". split; reflexivity.
  - destruct (IH (String c acc)) as (l & t0 & Heq & Hp); [discriminate|].
    exists l, (String c t0). split.
    + simpl. now rewrite <- Heq.
    + simpl bytewise.pushAll at 1. simpl in Hp. rewrite Hp. reflexivity.
Qed.

Lemma noSlash_app (a b : string) : noSlash (a ++ b) -> noSlash a /\ noSlash b.
Proof.
  unfold noSlash. induction a as [|c a IH]; simpl; [auto|].
  intros H. apply orb_false_iff in H as [Hc H]. destruct (IH H) as [Ha Hb].
  rewrite Hc, Ha. auto.
Qed.

(** A [..] element takes the last name out of the buffer, with the
    separator before it. *)
Lemma backtrack_outOf (r : bool) (t : string) (rest : list string) (dotdot : nat) :
  t <> "" -> noSlash t ->
  dotdot <= String.length (outOf r rest) ->
  (rest = [] -> dotdot = String.length (base r)) ->
  bytewise.backtrack (outOf r (t :: rest)) dotdot = outOf r rest.
Proof.
  intros Ht Hs Hle Hbase. rewrite outOf_cons.
  destruct (pushAll_head (sepOut r rest) Ht) as (l & t0 & Heq & Hp).
  rewrite Hp. unfold bytewise.backtrack.
  subst t. apply noSlash_app in Hs as [Hs0 Hl].
  assert (Hlsep : filepath.IsPathSeparator l = false).
  { unfold noSlash in Hl. simpl in Hl. now rewrite orb_false_r in Hl. }
  assert (Hd : dotdot <= String.length (sepOut r rest)).
  { destruct rest; simpl in *; lia. }
  rewrite (backtrackLoop_pushAll l (sepOut r rest) Hs0 Hlsep Hd).
  set (popped := match t0 with String c _ => c | EmptyString => l end).
  assert (Hpop : filepath.IsPathSeparator popped = false).
  { unfold popped. destruct t0 as [|c0 t1]; [exact Hlsep|].
    unfold noSlash in Hs0. simpl in Hs0.
    apply orb_false_iff in Hs0 as [Hc0 _]. exact Hc0. }
  destruct rest as [|e rest'].
  - (* the buffer holds no other element *)
    simpl sepOut. simpl outOf. rewrite (Hbase eq_refl).
    destruct r; simpl; [|reflexivity].
    reflexivity.
  - unfold sepOut in *.
    remember (outOf r (e :: rest')) as o eqn:Ho.
    assert (Hlt : Nat.ltb dotdot (String.length (String "/" o)) = true)
      by (apply Nat.ltb_lt; simpl; lia).
    change (bytewise.backtrackLoop popped (String "/" o) dotdot)
      with (if Nat.ltb dotdot (String.length (String "/" o))
               && negb (filepath.IsPathSeparator popped)
            then bytewise.backtrackLoop "/" o dotdot
            else String "/" o).
    rewrite Hlt, Hpop. simpl andb. cbv iota.
    (* the byte taken last is the separator *)
    destruct o as [|c1 o1]; [reflexivity|].
    simpl bytewise.backtrackLoop.
    change (filepath.IsPathSeparator "/") with true.
    rewrite andb_false_r. reflexivity.
Qed.

Lemma wf_nonEmpty (r : bool) (st : filepath.lazybuf) :
  wf r st -> Forall nonEmpty (filepath.written st).
Proof.
  intros (top & Hw & Htop & _). rewrite Hw. apply Forall_app. split.
  - eapply Forall_impl; [|exact Htop]. intros e He ->. discriminate.
  - apply Forall_forall. intros e He. apply repeat_spec in He. subst e.
    discriminate.
Qed.

(** The test [out.w > dotdot] on the bytes is the test on the elements. *)
Lemma dotdot_reached (r : bool) (st : filepath.lazybuf) :
  wf r st ->
  Nat.ltb (String.length (outOf r (repeat ".." (filepath.dotdot st))))
          (String.length (outOf r (filepath.written st)))
  = Nat.ltb (filepath.dotdot st) (List.length (filepath.written st)).
Proof.
  intros (top & Hw & Htop & _). rewrite Hw, length_app, repeat_length.
  destruct top as [|t top].
  - simpl. now rewrite !Nat.ltb_irrefl.
  - assert (Hne : Forall nonEmpty (t :: top)).
    { eapply Forall_impl; [|exact Htop]. intros e He ->. discriminate. }
    inversion Hne as [|? ? Ht Htop']; subst.
    pose proof (outOf_length_cons r (top ++ repeat ".." (filepath.dotdot st)) Ht).
    pose proof (@outOf_length_app r top (repeat ".." (filepath.dotdot st)) Htop').
    transitivity true; [apply Nat.ltb_lt; simpl app; lia|].
    symmetry. apply Nat.ltb_lt. simpl. lia.
Qed.

Lemma cleanElem_empty (r : bool) (st : filepath.lazybuf) :
  filepath.cleanElem r st "" = st.
Proof. reflexivity. Qed.

Lemma cleanElem_dot (r : bool) (st : filepath.lazybuf) :
  filepath.cleanElem r st "." = st.
Proof. reflexivity. Qed.

(** The loop over the bytes and the loop over the elements write the
    same buffer. *)
Lemma loop_elements (fuel : nat) :
  forall (r : bool) (p : string) (st : filepath.lazybuf),
    String.length p <= fuel ->
    wf r st ->
    bytewise.loop fuel r p (outOf r (filepath.written st))
      (String.length (outOf r (repeat ".." (filepath.dotdot st))))
    = outOf r (filepath.written
                 (fold_left (filepath.cleanElem r) (filepath.elements p) st)).
Proof.
  induction fuel as [|fuel IH]; intros r p st Hlen Hwf.
  - destruct p; [reflexivity | simpl in Hlen; lia].
  - destruct p as [|c p1]; [reflexivity|].
    simpl in Hlen. cbn [bytewise.loop].
    destruct (filepath.IsPathSeparator c) eqn:Hc.
    + (* empty path element *)
      simpl filepath.elements. rewrite Hc. simpl fold_left.
      rewrite cleanElem_empty. apply IH; [lia | exact Hwf].
    + rewrite cleanLoop_take_drop.
      assert (Htake : takeElem (String c p1) = String c (takeElem p1))
        by (simpl; now rewrite Hc).
      assert (Hdrop : dropElem (String c p1) = dropElem p1)
        by (simpl; now rewrite Hc).
      pose proof (takeElem_noSlash (String c p1)) as Hns.
      pose proof (cleanElem_wf Hns Hwf) as Hwf'.
      pose proof (dropElem_length p1) as Hdl.
      rewrite Htake in *. rewrite Hdrop.
      rewrite endOfElement_takeElem, dotdot_test.
      destruct (Ascii.eqb c "." && String.eqb (takeElem p1) "") eqn:T1.
      * (* . element *)
        apply andb_prop in T1 as [Hdot Hemp].
        apply Ascii.eqb_eq in Hdot. apply String.eqb_eq in Hemp.
        subst c. rewrite Hemp, (takeElem_empty p1 Hemp), cleanElem_dot.
        apply IH; [lia | exact Hwf].
      * destruct (Ascii.eqb c "." && String.eqb (takeElem p1) ".") eqn:T2.
        -- (* .. element *)
           apply andb_prop in T2 as [Hdot Hd].
           pose proof (dotdot_rest p1 Hd) as Hrest.
           rewrite Hrest. rewrite Hrest in Hdl.
           apply Ascii.eqb_eq in Hdot. apply String.eqb_eq in Hd.
           subst c. rewrite Hd in *.
           rewrite (dotdot_reached Hwf).
           assert (Hstep : filepath.cleanElem r st ".."
             = if Nat.ltb (filepath.dotdot st) (List.length (filepath.written st))
               then {| filepath.written := tl (filepath.written st);
                       filepath.dotdot := filepath.dotdot st |}
               else if negb r
                    then {| filepath.written := ".." :: filepath.written st;
                            filepath.dotdot := S (List.length (filepath.written st)) |}
                    else st) by reflexivity.
           rewrite Hstep in *. clear Hstep.
           destruct (Nat.ltb (filepath.dotdot st)
                       (List.length (filepath.written st))) eqn:Hlt.
           ++ (* can backtrack *)
              destruct Hwf as (top & Hw & Htop & Hr).
              apply Nat.ltb_lt in Hlt.
              rewrite Hw, length_app, repeat_length in Hlt.
              destruct top as [|t top]; [simpl in Hlt; lia|].
              inversion Htop as [|? ? Ht Htop']; subst.
              assert (Hne : Forall nonEmpty top).
              { eapply Forall_impl; [|exact Htop']. intros e He ->. discriminate. }
              rewrite Hw in *. simpl app in *. cbn [tl] in *.
              rewrite backtrack_outOf.
              ** apply (IH r (strings.drop 1 p1)
                   {| filepath.written := top ++ repeat ".." (filepath.dotdot st);
                      filepath.dotdot := filepath.dotdot st |});
                   [lia | exact Hwf'].
              ** intros ->. discriminate.
              ** now apply isReal_noSlash.
              ** now apply outOf_length_app.
              ** intros Hnil. apply app_eq_nil in Hnil as [_ Hrep].
                 destruct (filepath.dotdot st); [reflexivity | discriminate].
           ++ destruct r; cbn [negb] in *.
              ** (* rooted: the element is dropped *)
                 apply IH; [lia | exact Hwf'].
              ** (* not rooted: append .. *)
                 destruct Hwf as (top & Hw & Htop & Hr).
                 apply Nat.ltb_ge in Hlt.
                 rewrite Hw, length_app, repeat_length in Hlt.
                 destruct top as [|t top]; [|simpl in Hlt; lia].
                 simpl app in Hw.
                 specialize (IH false (strings.drop 1 p1)
                   {| filepath.written := ".." :: filepath.written st;
                      filepath.dotdot := S (List.length (filepath.written st)) |}).
                 cbn [filepath.written filepath.dotdot] in IH.
                 rewrite <- IH; [|lia | exact Hwf'].
                 assert (Hout : (if Nat.ltb 0 (String.length (outOf false (filepath.written st)))
                                 then String "/" (outOf false (filepath.written st))
                                 else outOf false (filepath.written st))
                                = sepOut false (filepath.written st)).
                 { destruct (filepath.written st) as [|e rest] eqn:Hws;
                     [reflexivity|].
                   assert (He : nonEmpty e).
                   { destruct (filepath.dotdot st); simpl in Hw;
                       inversion Hw; discriminate. }
                   pose proof (outOf_length_cons false rest He) as Hl.
                   assert (Hpos : Nat.ltb 0 (String.length (outOf false (e :: rest))) = true)
                     by (apply Nat.ltb_lt; lia).
                   rewrite Hpos. reflexivity. }
                 rewrite Hout.
                 change (String "." (String "." (sepOut false (filepath.written st))))
                   with (bytewise.pushAll ".." (sepOut false (filepath.written st))).
                 rewrite <- outOf_cons.
                 f_equal. f_equal. f_equal.
                 rewrite Hw, repeat_length. reflexivity.
        -- (* real path element *)
           assert (Hstep : filepath.cleanElem r st (String c (takeElem p1))
                           = {| filepath.written :=
                                  String c (takeElem p1) :: filepath.written st;
                                filepath.dotdot := filepath.dotdot st |}).
           { unfold filepath.cleanElem.
             change (String.eqb (String c (takeElem p1)) "") with false.
             change (String.eqb (String c (takeElem p1)) ".")
               with (Ascii.eqb c "." && String.eqb (takeElem p1) "").
             change (String.eqb (String c (takeElem p1)) "..")
               with (Ascii.eqb c "." && String.eqb (takeElem p1) ".").
             now rewrite T1, T2. }
           rewrite Hstep in *.
           rewrite (slash_if_needed r (wf_nonEmpty Hwf)).
           rewrite copyElement_spec, Htake, Hdrop, <- outOf_cons.
           specialize (IH r (dropElem p1)
             {| filepath.written := String c (takeElem p1) :: filepath.written st;
                filepath.dotdot := filepath.dotdot st |}).
           cbn [filepath.written filepath.dotdot] in IH.
           apply IH; [lia | exact Hwf'].
Qed.

Lemma outOf_not_empty (r : bool) (e : string) (rest : list string) :
  nonEmpty e -> outOf r (e :: rest) <> "".
Proof.
  intros He Heq. pose proof (outOf_length_cons r rest He) as H.
  rewrite Heq in H. simpl in H. lia.
Qed.

(** The bytes of the buffer, read from the first one. *)
Lemma pushAll_outOf (r : bool) (written : list string) (acc : string) :
  written <> [] ->
  bytewise.pushAll (outOf r written) acc
  = base r ++ String.concat "/" (rev written) ++ acc.
Proof.
  revert acc. induction written as [|e rest IH]; intros acc Hne; [contradiction|].
  rewrite outOf_cons, pushAll_pushAll.
  destruct rest as [|e' rest].
  - destruct r; reflexivity.
  - unfold sepOut. simpl bytewise.pushAll.
    rewrite IH by discriminate.
    change (rev (e :: e' :: rest)) with (rev (e' :: rest) ++ [e])%list.
    rewrite concat_app.
    + simpl String.concat at 2. now rewrite !append_assoc.
    + intros Hnil. apply (f_equal (@List.length string)) in Hnil.
      rewrite length_rev in Hnil. discriminate.
    + discriminate.
Qed.

(** The loop of Go's [filepath.Clean], byte by byte, returns what
    [filepath.Clean] returns element by element. *)
Theorem Clean_bytewise (path : string) : bytewise.Clean path = filepath.Clean path.
Proof.
  destruct path as [|c p1]; [reflexivity|].
  assert (Hinit : forall r, wf r {| filepath.written := []; filepath.dotdot := 0 |}).
  { intros r. exists []. repeat split; constructor. }
  unfold bytewise.Clean, filepath.Clean, filepath.cleanLoop.
  cbn [filepath.rooted].
  destruct (filepath.IsPathSeparator c) eqn:Hc.
  - (* rooted *)
    pose proof (@loop_elements (String.length (String c p1)) true p1
                  {| filepath.written := []; filepath.dotdot := 0 |}) as H.
    cbn [filepath.written filepath.dotdot outOf base repeat] in H.
    change (String.length "/") with 1 in H.
    rewrite H by (simpl; lia || apply Hinit). clear H.
    simpl filepath.elements. rewrite Hc. simpl fold_left.
    rewrite cleanElem_empty.
    pose proof (@cleanLoop_wf (String c p1)) as Hwf.
    unfold filepath.cleanLoop in Hwf. cbn [filepath.rooted] in Hwf.
    rewrite Hc in Hwf. simpl filepath.elements in Hwf. rewrite Hc in Hwf.
    simpl fold_left in Hwf. rewrite cleanElem_empty in Hwf.
    apply wf_nonEmpty in Hwf.
    destruct (filepath.written _) as [|e rest] eqn:Hw.
    + reflexivity.
    + inversion Hwf as [|? ? He _]; subst.
      pose proof (outOf_not_empty true rest He) as Hne.
      destruct (outOf true (e :: rest)) eqn:Ho; [contradiction|].
      rewrite <- Ho, pushAll_outOf by discriminate.
      now rewrite append_nil_r.
  - (* not rooted *)
    pose proof (@loop_elements (String.length (String c p1)) false (String c p1)
                  {| filepath.written := []; filepath.dotdot := 0 |}) as H.
    cbn [filepath.written filepath.dotdot outOf base repeat] in H.
    change (String.length "") with 0 in H.
    rewrite H by (simpl; lia || apply Hinit). clear H.
    pose proof (@cleanLoop_wf (String c p1)) as Hwf.
    unfold filepath.cleanLoop in Hwf. cbn [filepath.rooted] in Hwf.
    rewrite Hc in Hwf. apply wf_nonEmpty in Hwf.
    destruct (filepath.written _) as [|e rest] eqn:Hw.
    + reflexivity.
    + inversion Hwf as [|? ? He _]; subst.
      pose proof (outOf_not_empty false rest He) as Hne.
      destruct (outOf false (e :: rest)) eqn:Ho; [contradiction|].
      rewrite <- Ho, pushAll_outOf by discriminate.
      now rewrite append_nil_r.
Qed.

(* ================================================================== *)
(** * Further properties of the helpers and the handlers *)

(** ** [filter], [splitFiles] and [filterFiles] *)

(** X1.  [filter] returns the elements that [f] accepts, in the order
    of the input and as often as they occur there; filtering two
    slices one after the other is filtering their concatenation. *)
Theorem filter_keeps_accepted (files : list FileInfo) (f : FileInfo -> bool) :
  filter files f = List.filter f files
  /\ (forall v, In v (filter files f) <-> In v files /\ f v = true)
  /\ (forall more,
        filter (files ++ more)%list f = (filter files f ++ filter more f)%list).
Proof.
  split; [apply filter_spec|]. split.
  - intros v. rewrite filter_spec. apply filter_In.
  - intros more. rewrite !filter_spec. apply filter_app.
Qed.

Lemma filter_partition_Permutation {A} (f : A -> bool) (l : list A) :
  Permutation (List.filter f l ++ List.filter (fun v => negb (f v)) l)%list l.
Proof.
  induction l as [|x l IH]; simpl; [constructor|].
  destruct (f x); simpl.
  - now constructor.
  - symmetry. apply Permutation_cons_app. now symmetry.
Qed.

(** X2.  [splitFiles] loses nothing and doubles nothing: its first
    group holds the elements that [f] accepts and its second group the
    others, each in the order of the input, and the two groups together
    are a rearrangement of the input. *)
Theorem splitFiles_partition (vs : list FileInfo) (f : FileInfo -> bool) :
  fst (splitFiles vs f) = List.filter f vs
  /\ snd (splitFiles vs f) = List.filter (fun v => negb (f v)) vs
  /\ Permutation (fst (splitFiles vs f) ++ snd (splitFiles vs f))%list vs
  /\ List.length (fst (splitFiles vs f)) + List.length (snd (splitFiles vs f))
     = List.length vs.
Proof.
  rewrite splitFiles_spec. cbn [fst snd].
  pose proof (filter_partition_Permutation f vs) as HP.
  repeat split; [exact HP|].
  rewrite <- length_app. now apply Permutation_length.
Qed.

Lemma filter_all {A} (f : A -> bool) (l : list A) :
  Forall (fun x => f x = true) l -> List.filter f l = l.
Proof.
  induction 1 as [|x l Hx Hl IH]; simpl; [reflexivity|].
  now rewrite Hx, IH.
Qed.

(** X3.  [filterFiles] returns no hidden file; a second pass changes
    nothing; and files of which none is hidden are returned as they
    are. *)
Theorem filterFiles_drops_hidden (files : list FileInfo) :
  Forall (fun fi => hidden fi = false) (filterFiles files)
  /\ filterFiles (filterFiles files) = filterFiles files
  /\ (Forall (fun fi => hidden fi = false) files -> filterFiles files = files).
Proof.
  unfold filterFiles. rewrite !filter_spec. fold hidden.
  assert (Hall : Forall (fun fi => hidden fi = false)
                   (List.filter (fun fi => negb (hidden fi)) files)).
  { apply Forall_forall. intros fi Hin. apply filter_In in Hin as [_ H].
    now apply negb_true_iff in H. }
  repeat split.
  - exact Hall.
  - apply filter_all.
    eapply Forall_impl; [|exact Hall]. intros fi H. cbv beta.
    now apply negb_true_iff.
  - intros H. apply filter_all.
    eapply Forall_impl; [|exact H]. intros fi Hfi. cbv beta.
    now apply negb_true_iff.
Qed.

Lemma filterFiles_drops_hidden_witness :
  filterFiles [{| Name := "docs"; Size := 4096; IsDir := true |};
               {| Name := "readme.txt"; Size := 12; IsDir := false |}]
  = [{| Name := "docs"; Size := 4096; IsDir := true |};
     {| Name := "readme.txt"; Size := 12; IsDir := false |}].
Proof.
  apply (filterFiles_drops_hidden
           [{| Name := "docs"; Size := 4096; IsDir := true |};
            {| Name := "readme.txt"; Size := 12; IsDir := false |}]).
  repeat constructor.
Defined.

(** ** [abs] *)

(** X4.  Whatever the directory, the root and the answer of
    [os.Getwd], [abs] returns a path that begins with a separator. *)
Theorem abs_begins_with_separator (wd : option string) (dir root : string) :
  exists t, abs wd dir root = String "/" t.
Proof. destruct (abs_rooted wd dir root) as [t Ht]. now exists t. Qed.

(** X5.  Where the cleaned path holds no percent sign, [abs] returns
    it: the root taken off the front of the absolute directory, a
    separator put before the rest, and the result cleaned; [Clean]
    leaves that path as it is. *)
Theorem abs_without_percent (wd : option string) (dir root : string) :
  let path := strings.TrimPrefix (fst (filepath.Abs wd dir))
                                 (fst (filepath.Abs wd root)) in
  strings.ContainsByte (filepath.Clean ("/" ++ path)) "%" = false ->
  abs wd dir root = filepath.Clean ("/" ++ path)
  /\ filepath.Clean (abs wd dir root) = abs wd dir root.
Proof.
  intros path H.
  assert (Habs : abs wd dir root = filepath.Clean ("/" ++ path))
    by (now apply abs_no_percent).
  split; [exact Habs|]. rewrite Habs. apply Clean_idempotent.
Qed.

Lemma abs_without_percent_witness :
  abs (Some "/") "/srv/www/docs" "/srv/www" = "/docs".
Proof.
  apply (abs_without_percent (Some "/") "/srv/www/docs" "/srv/www").
  reflexivity.
Defined.

(** X6.  In a working directory that is a clean rooted path, for the
    empty root and a clean relative directory of names that lead down
    from it, [abs] returns the names as a rooted path, provided that
    path holds no percent sign. *)
Theorem abs_under_working_directory (cs bs : list string) :
  Forall (fun e => isReal e = true) cs ->
  Forall (fun e => isReal e = true) bs ->
  strings.ContainsByte (rootedPath bs) "%" = false ->
  abs (Some (rootedPath cs)) (relPath bs) "" = rootedPath bs.
Proof.
  intros Hc Hb Hp.
  rewrite abs_no_percent; rewrite (stripped_under_root Hc Hb);
    [reflexivity | exact Hp].
Qed.

Lemma abs_under_working_directory_witness :
  abs (Some (rootedPath ["srv"; "www"])) (relPath ["docs"; "api"]) ""
  = rootedPath ["docs"; "api"].
Proof.
  apply abs_under_working_directory; [repeat constructor .. | reflexivity].
Defined.

Lemma TrimPrefix_self (s : string) : strings.TrimPrefix s s = "".
Proof.
  unfold strings.TrimPrefix.
  assert (H : strings.HasPrefix s s = true
              /\ strings.drop (String.length s) s = "").
  { induction s as [|c s [IH1 IH2]]; simpl; [split; reflexivity|].
    now rewrite Ascii.eqb_refl, IH1, IH2. }
  destruct H as [H1 H2]. now rewrite H1, H2.
Qed.

(** X7.  For the root itself [abs] returns the separator alone,
    whatever the root is and whatever [os.Getwd] answers. *)
Theorem abs_of_root (wd : option string) (root : string) :
  abs wd root root = "/".
Proof. unfold abs. now rewrite TrimPrefix_self. Qed.

(** X8.  The errors of [filepath.Abs] are dropped: when [os.Getwd]
    fails, [abs] of a relative directory and a relative root is the
    separator alone. *)
Theorem abs_without_working_directory (dir root : string) :
  filepath.IsAbs dir = false ->
  filepath.IsAbs root = false ->
  abs None dir root = "/".
Proof.
  intros Hd Hr. unfold abs, filepath.Abs. now rewrite Hd, Hr.
Qed.

Lemma abs_without_working_directory_witness : abs None "docs/api" "" = "/".
Proof. apply abs_without_working_directory; reflexivity. Defined.

(** ** The links of the page of a directory under the working directory *)





(** ** What the handlers leave behind *)

Lemma Write_same (e : Env) (p : Piece) (st : State) :
  exists failed st',
    Write e p st = Return failed st'
    /\ same st st'
    /\ (body (w st') = (body (w st) ++ [p])%list \/ body (w st') = body (w st)).
Proof.
  destruct st as [v l cs [s b n]].
  unfold Write, WriteHeader, withWriter, bind. simpl.
  do 2 eexists. split; [reflexivity|]. split; [repeat split|]. simpl.
  destruct (writeOK e n); auto.
Qed.

Lemma writeAll_same (e : Env) (ps : list Piece) (st : State) :
  exists err st' k,
    writeAll e ps st = Return err st'
    /\ same st st'
    /\ body (w st') = (body (w st) ++ firstn k ps)%list
    /\ (err = None \/ err = Some "write error").
Proof.
  revert st; induction ps as [|p ps IH]; intros st.
  - exists None, st, 0. repeat split; auto. simpl. now rewrite app_nil_r.
  - simpl. unfold bind.
    destruct (Write_same e p st) as (failed & st1 & Hrun & (Hv & Hl & Hc) & Hb).
    rewrite Hrun.
    assert (Hfail : failed = true -> body (w st1) = body (w st)).
    { intros ->. clear Hb. destruct st as [v l cs [s b n]].
      unfold Write, WriteHeader, withWriter, bind in Hrun. simpl in Hrun.
      inversion Hrun as [[Hf Hst]]. apply negb_true_iff in Hf.
      simpl. now rewrite Hf. }
    assert (Hok : failed = false -> body (w st1) = (body (w st) ++ [p])%list).
    { intros ->. clear Hb. destruct st as [v l cs [s b n]].
      unfold Write, WriteHeader, withWriter, bind in Hrun. simpl in Hrun.
      inversion Hrun as [[Hf Hst]]. apply negb_false_iff in Hf.
      simpl. now rewrite Hf. }
    destruct failed.
    + exists (Some "write error"), st1, 0. repeat split; auto.
      simpl. rewrite app_nil_r. now apply Hfail.
    + destruct (IH st1) as (err & st2 & k & Hrun2 & (Hv2 & Hl2 & Hc2) & Hb2 & He).
      exists err, st2, (S k). rewrite Hrun2. repeat split; try congruence.
      rewrite Hb2, (Hok eq_refl). simpl. now rewrite <- app_assoc.
Qed.

Lemma http_Error_same (e : Env) (error : string) (code : nat) (st : State) :
  exists st',
    http_Error e error code st = Return tt st'
    /\ same st st'
    /\ (body (w st') = (body (w st) ++ [Plain (error ++ nl)])%list
        \/ body (w st') = body (w st)).
Proof.
  unfold http_Error, bind.
  destruct st as [v l cs [s b n]].
  unfold WriteHeader at 1, withWriter. cbn [vars stdlog calls w status body writes].
  match goal with |- context [Write e ?p ?s] =>
    destruct (Write_same e p s) as (failed & st1 & Hrun & Hsame & Hb)
  end.
  rewrite Hrun. exists st1. split; [reflexivity|]. split; [exact Hsame|].
  exact Hb.
Qed.

Lemma In_firstn {A} (x : A) (n : nat) (l : list A) :
  In x (firstn n l) -> In x l.
Proof.
  intros H. rewrite <- (firstn_skipn n l). apply in_or_app. now left.
Qed.

Lemma NameVal_templateOutput (wd : option string) (data : Listing.t) (name : string) :
  In (NameVal name) (templateOutput wd data) ->
  In name (map Name (Listing.Directories data ++ Listing.Files data)%list).
Proof.
  intros Hin. rewrite <- linkTexts_templateOutput with (wd := wd).
  unfold linkTexts. apply in_flat_map. exists (NameVal name).
  split; [exact Hin | now left].
Qed.

(** What [handleDirectory] leaves behind, whatever the surroundings
    answer: it does not panic; it logs nothing, or the one line of a
    failed template; it reads the directory and then, at most,
    executes the template; and every link text in the response was
    there before or is the name of a file that is not hidden. *)
Lemma handleDirectory_history (e : Env) (r : Request) (path : string) (st : State) :
  exists st' rest cs,
    handleDirectory e r path st = Return tt st'
    /\ vars st' = vars st
    /\ stdlog st' = (stdlog st ++ rest)%list
    /\ (rest = [] \/ rest = ["write error"])
    /\ calls st' = (calls st ++ ReadDir path :: cs)%list
    /\ (cs = [] \/ exists data, cs = [ExecuteTemplate data])
    /\ (forall name, In (NameVal name) (body (w st')) ->
          In (NameVal name) (body (w st))
          \/ strings.HasPrefix name "." = false).
Proof.
  unfold handleDirectory, bind. rewrite ioutil_ReadDir_run.
  set (st0 := setCalls st (calls st ++ [ReadDir path]) (w st)).
  destruct (readdir e (List.length (calls st)) path) as [err|contents].
  - (* the read fails *)
    destruct (http_Error_same e (http_StatusText 500) 500 st0)
      as (st1 & Hrun & (Hv & Hl & Hc) & Hb).
    exists st1, [], []. rewrite Hrun. repeat split; auto.
    + rewrite Hl. simpl. now rewrite app_nil_r.
    + intros name Hin. left.
      destruct Hb as [Hb|Hb]; rewrite Hb in Hin; [|exact Hin].
      apply in_app_or in Hin as [Hin|[Hin|[]]]; [exact Hin | discriminate].
  - unfold filterFiles. rewrite filter_spec, splitFiles_spec.
    unfold getRoot. cbn [setCalls vars].
    match goal with |- context [Template_ExecuteTemplate e _ ?d] =>
      set (data := d)
    end.
    unfold Template_ExecuteTemplate.
    change (String.eqb "index.html" "index.html") with true. cbv iota.
    unfold bind, call.
    match goal with |- context [writeAll e ?ps ?s] =>
      destruct (writeAll_same e ps s)
        as (err & st1 & k & Hrun & (Hv & Hl & Hc) & Hb & Herr)
    end.
    rewrite Hrun. unfold st0 in Hv, Hl, Hc, Hb.
    cbn [setCalls vars stdlog calls w] in Hv, Hl, Hc, Hb.
    assert (Hnames : forall name,
              In (NameVal name) (body (w st1)) ->
              In (NameVal name) (body (w st))
              \/ strings.HasPrefix name "." = false).
    { intros name Hin. rewrite Hb in Hin.
      apply in_app_or in Hin as [Hin|Hin]; [now left | right].
      apply In_firstn, NameVal_templateOutput in Hin.
      apply in_map_iff in Hin as (fi & Hname & Hfi). subst name.
      apply in_app_or in Hfi.
      assert (Hvis : In fi (List.filter
                (fun fi => negb (strings.HasPrefix (Name fi) ".")) contents)).
      { destruct Hfi as [Hfi|Hfi]; cbn in Hfi; now apply filter_In in Hfi. }
      apply filter_In in Hvis as [_ Hvis]. now apply negb_true_iff in Hvis. }
    destruct Herr as [-> | ->].
    + (* the template succeeds *)
      exists st1, [], [ExecuteTemplate data].
      split; [reflexivity|]. split; [exact Hv|].
      split; [rewrite Hl; now rewrite app_nil_r|]. split; [now left|].
      split; [rewrite Hc; now rewrite <- app_assoc|].
      split; [right; now exists data | exact Hnames].
    + (* the template fails *)
      unfold log_Println.
      match goal with |- context [http_Error e ?err ?code ?s] =>
        destruct (http_Error_same e err code s)
          as (st2 & Hrun2 & (Hv2 & Hl2 & Hc2) & Hb2)
      end.
      rewrite Hrun2. cbn [vars stdlog calls w] in Hv2, Hl2, Hc2, Hb2.
      exists st2, ["write error"], [ExecuteTemplate data].
      split; [reflexivity|]. split; [congruence|].
      split; [congruence|]. split; [now right|].
      split; [rewrite Hc2, Hc; now rewrite <- app_assoc|].
      split; [right; now exists data|].
      intros name Hin.
      destruct Hb2 as [Hb2|Hb2]; rewrite Hb2 in Hin.
      * apply in_app_or in Hin as [Hin|[Hin|[]]];
          [now apply Hnames | discriminate].
      * now apply Hnames.
Qed.

(** The chain of handlers that [main] builds, on a URL path that
    begins with the separator: the separator is taken off, the request
    is logged, and [handleServe] runs with the file server behind it. *)
Lemma server_unfold (wd : string) (e : Env) (p a : string) (st : State) :
  let r := {| URL_Path := p; RemoteAddr := a |} in
  server wd e {| URL_Path := "/" ++ p; RemoteAddr := a |} st
  = handleServe (http_FileServer wd) e r (logged st (logLine e st r)).
Proof.
  intros r. unfold server, main. cbn [fst].
  unfold http_StripPrefix. cbn [URL_Path RemoteAddr].
  rewrite (TrimPrefix_append "/" p).
  assert (Hlt : (String.length p <? String.length ("/" ++ p))%nat = true)
    by (apply Nat.ltb_lt; simpl; lia).
  rewrite Hlt. reflexivity.
Qed.

(** ** [handleServe] *)

(** X11.  For a path that [os.Stat] finds and that is no directory,
    [handleServe] hands the request as it is to the next handler: it
    has made the one call of [os.Stat], read no directory, executed no
    template, and written nothing to the response or the log. *)
Theorem handleServe_file
  (next : Handler) (e : Env) (r : Request) (st : State) (info : FileInfo) :
  stat e (List.length (calls st)) (filepath.Clean (URL_Path r)) = inr info ->
  IsDir info = false ->
  handleServe next e r st
  = next e r {| vars := vars st; stdlog := stdlog st;
                calls := (calls st ++ [Stat (filepath.Clean (URL_Path r))])%list;
                w := w st |}.
Proof.
  intros Hstat Hdir. unfold handleServe, bind.
  rewrite os_Stat_run, Hstat. simpl. now rewrite Hdir.
Qed.

Lemma handleServe_file_witness :
  handleServe (http_FileServer "/srv/www") (treeEnv "/srv/www" specTree)
              (get "docs/readme.txt") start
  = http_FileServer "/srv/www" (treeEnv "/srv/www" specTree)
      (get "docs/readme.txt")
      {| vars := vars start; stdlog := stdlog start;
         calls := (calls start
                   ++ [Stat (filepath.Clean (URL_Path (get "docs/readme.txt")))])%list;
         w := w start |}.
Proof.
  apply (@handleServe_file (http_FileServer "/srv/www")
           (treeEnv "/srv/www" specTree) (get "docs/readme.txt") start
           {| Name := "readme.txt"; Size := 12; IsDir := false |});
    reflexivity.
Defined.

(** X12.  Through the chain of handlers that [main] builds, a request
    whose [os.Stat] fails with an error other than "does not exist" is
    logged and then ends in a panic: the one call is the [os.Stat], and
    the response is left as it was, without header and body. *)
Theorem server_stat_error
  (wd : string) (e : Env) (p a : string) (st : State) (err : Errno) :
  stat e (List.length (calls st)) (filepath.Clean p) = inl err ->
  os_IsNotExist err = false ->
  server wd e {| URL_Path := "/" ++ p; RemoteAddr := a |} st
  = Panic "runtime error: invalid memory address or nil pointer dereference"
      {| vars := vars st;
         stdlog := (stdlog st
                    ++ [(abs (getwd e) (filepath.Clean p) (Root (vars st))
                         ++ " " ++ a)%string])%list;
         calls := (calls st ++ [Stat (filepath.Clean p)])%list;
         w := w st |}.
Proof.
  intros Hstat Herr. rewrite server_unfold. cbv zeta.
  rewrite (@handleServe_stat_error (http_FileServer wd) e
             {| URL_Path := p; RemoteAddr := a |} _ err);
    [reflexivity | exact Hstat | exact Herr].
Qed.

Lemma server_stat_error_witness :
  server "/srv/www" (treeEnv "/srv/www" siteTree)
         {| URL_Path := "/" ++ "private/key"; RemoteAddr := "127.0.0.1:50000" |}
         start
  = Panic "runtime error: invalid memory address or nil pointer dereference"
      {| vars := vars start;
         stdlog := (stdlog start
                    ++ [(abs (getwd (treeEnv "/srv/www" siteTree))
                             (filepath.Clean "private/key") (Root (vars start))
                         ++ " " ++ "127.0.0.1:50000")%string])%list;
         calls := (calls start ++ [Stat (filepath.Clean "private/key")])%list;
         w := w start |}.
Proof.
  apply (@server_stat_error "/srv/www" (treeEnv "/srv/www" siteTree)
           "private/key" "127.0.0.1:50000" start EACCES); reflexivity.
Defined.

(** X13.  Once [os.Stat] has found a directory and its children are
    read, the response has status 200 whatever becomes of the
    template: the template writes to the response itself, so the
    header is out with its first write, and the later
    [WriteHeader(500)] of a failed template changes nothing. *)
Theorem handleServe_directory_status
  (next : Handler) (e : Env) (r : Request) (st : State)
  (info : FileInfo) (contents : list FileInfo) :
  stat e (List.length (calls st)) (filepath.Clean (URL_Path r)) = inr info ->
  IsDir info = true ->
  readdir e (List.length (calls st) + 2) (filepath.Clean (URL_Path r))
  = inr contents ->
  status (w st) = None ->
  panicked (handleServe next e r st) = false
  /\ status (w (final (handleServe next e r st))) = Some 200.
Proof.
  intros Hstat Hdir Hread Hs. unfold handleServe, bind.
  rewrite os_Stat_run, Hstat. simpl. rewrite Hdir.
  rewrite ioutil_ReadDir_run. simpl.
  match goal with |- context [handleDirectory e r ?path ?s] =>
    pose proof (@handleDirectory_status e r path s contents) as H200;
    destruct (handleDirectory_history e r path s)
      as (st' & rest & cs & Hrun & _)
  end.
  rewrite Hrun in *. split; [reflexivity|]. apply H200.
  - cbn [setCalls calls]. rewrite !length_app. simpl.
    replace (List.length (calls st) + 1 + 1) with (List.length (calls st) + 2)
      by lia.
    exact Hread.
  - exact Hs.
Qed.

Lemma handleServe_directory_status_witness :
  status (w (final (handleServe (http_FileServer "/srv/www")
                      (lossy 3 (treeEnv "/srv/www" specTree))
                      (get "docs") start)))
  = Some 200.
Proof.
  apply (@handleServe_directory_status (http_FileServer "/srv/www")
           (lossy 3 (treeEnv "/srv/www" specTree)) (get "docs") start
           {| Name := "docs"; Size := 4096; IsDir := true |}
           [{| Name := "readme.txt"; Size := 12; IsDir := false |}]);
    reflexivity.
Defined.

(** ** A failure of the template, in general *)

(** The template stops at its first failed write: the pieces before
    it are in the body, and it returns the error. *)
Lemma writeAll_fail (e : Env) (ps : list Piece) :
  forall (st : State) (k : nat),
    k < List.length ps ->
    (forall j, j < k -> writeOK e (writes (w st) + j) = true) ->
    writeOK e (writes (w st) + k) = false ->
    writeAll e ps st
    = Return (Some "write error")
        {| vars := vars st; stdlog := stdlog st; calls := calls st;
           w := {| status := sent (status (w st));
                   body := (body (w st) ++ firstn k ps)%list;
                   writes := writes (w st) + S k |} |}.
Proof.
  induction ps as [|p ps IH]; intros st k Hk Hbefore Hfail;
    [simpl in Hk; lia|].
  destruct st as [v l cs [s b n]].
  cbn [vars stdlog calls w status body writes] in *.
  simpl writeAll. unfold bind, Write, WriteHeader, withWriter, bind. simpl.
  destruct k as [|k].
  - rewrite Nat.add_0_r in Hfail. rewrite Hfail. simpl. unfold ret.
    rewrite app_nil_r.
    destruct s; unfold sent; simpl; repeat f_equal; lia.
  - assert (H0 : writeOK e n = true)
      by (rewrite <- (Nat.add_0_r n); apply Hbefore; lia).
    rewrite H0. simpl.
    rewrite (IH _ k).
    + cbn [vars stdlog calls w status body writes].
      rewrite <- app_assoc.
      destruct s; unfold sent; simpl; repeat f_equal; lia.
    + simpl in Hk. lia.
    + cbn [w writes]. intros j Hj.
      replace (S n + j) with (n + S j) by lia. apply Hbefore. lia.
    + cbn [w writes]. replace (S n + k) with (n + S k) by lia. exact Hfail.
Qed.

(** X14.  When the [k]-th write of the template is the first that
    fails, [handleDirectory] logs the failure and leaves a response
    with status 200 whose body is the first [k] pieces of the page,
    followed by the text of status 500 if the write after the failed
    one succeeds. *)
Theorem handleDirectory_template_failure
  (e : Env) (r : Request) (path : string) (st : State)
  (contents : list FileInfo) (k : nat) :
  let visible := List.filter (fun fi => negb (hidden fi)) contents in
  let data := {| Listing.Root := Root (vars st);
                 Listing.Dir := path;
                 Listing.Directories := List.filter IsDir visible;
                 Listing.Files := List.filter (fun fi => negb (IsDir fi)) visible |} in
  let page := templateOutput (getwd e) data in
  readdir e (List.length (calls st)) path = inr contents ->
  w st = fresh ->
  k < List.length page ->
  (forall j, j < k -> writeOK e j = true) ->
  writeOK e k = false ->
  handleDirectory e r path st
  = Return tt
      {| vars := vars st;
         stdlog := (stdlog st ++ ["write error"])%list;
         calls := (calls st ++ [ReadDir path; ExecuteTemplate data])%list;
         w := {| status := Some 200;
                 body := (firstn k page
                          ++ if writeOK e (S k)
                             then [Plain ("Internal Server Error" ++ nl)]
                             else [])%list;
                 writes := S (S k) |} |}.
Proof.
  intros visible data page Hread Hw Hk Hbefore Hfail.
  unfold handleDirectory, bind. rewrite ioutil_ReadDir_run, Hread.
  unfold filterFiles. rewrite filter_spec, splitFiles_spec.
  fold hidden. fold visible. unfold getRoot. cbn [setCalls vars].
  change {| Listing.Root := Root (vars st); Listing.Dir := path;
            Listing.Directories := List.filter (fun fi => IsDir fi) visible;
            Listing.Files := List.filter (fun v => negb (IsDir v)) visible |}
    with data.
  unfold Template_ExecuteTemplate.
  change (String.eqb "index.html" "index.html") with true. cbv iota.
  unfold bind, call. fold page.
  rewrite (@writeAll_fail e page _ k); cbn [vars stdlog calls w];
    rewrite ?Hw; cbn [fresh writes status body]; try assumption.
  unfold log_Println, http_Error, bind, WriteHeader, withWriter, Write, bind.
  cbn. rewrite <- app_assoc. cbn.
  replace (k + 1) with (S k) by lia.
  destruct (writeOK e (S k)); rewrite ?app_nil_r; reflexivity.
Qed.

Lemma handleDirectory_template_failure_witness :
  handleDirectory (lossy 3 (treeEnv "/srv/www" specTree)) (get "docs") "docs" start
  = Return tt
      {| vars := vars start;
         stdlog := (stdlog start ++ ["write error"])%list;
         calls := (calls start
                   ++ [ReadDir "docs";
                       ExecuteTemplate
                         {| Listing.Root := ""; Listing.Dir := "docs";
                            Listing.Directories := [];
                            Listing.Files :=
                              [{| Name := "readme.txt"; Size := 12;
                                  IsDir := false |}] |}])%list;
         w := {| status := Some 200;
                 body := [Text Head; TitleVal "/docs"; Text Body];
                 writes := 5 |} |}.
Proof.
  apply (@handleDirectory_template_failure
           (lossy 3 (treeEnv "/srv/www" specTree)) (get "docs") "docs" start
           [{| Name := "readme.txt"; Size := 12; IsDir := false |}] 3).
  - reflexivity.
  - reflexivity.
  - vm_compute. lia.
  - intros j Hj. apply Nat.ltb_lt. exact Hj.
  - reflexivity.
Defined.

(** ** What the listing never shows, and what a request leaves behind *)

(** X15.  No hidden file is ever named on a page: whatever the
    directory holds and whichever writes fail, every link text in the
    response of [handleDirectory] is a name that does not begin with a
    dot. *)
Theorem hidden_never_listed
  (e : Env) (r : Request) (path : string) (st : State) (name : string) :
  w st = fresh ->
  In (NameVal name) (body (w (final (handleDirectory e r path st)))) ->
  strings.HasPrefix name "." = false.
Proof.
  intros Hw Hin.
  destruct (handleDirectory_history e r path st)
    as (st' & rest & cs & Hrun & _ & _ & _ & _ & _ & Hnames).
  rewrite Hrun in Hin. cbn [final] in Hin.
  destruct (Hnames name Hin) as [Hold|Hnew]; [|exact Hnew].
  rewrite Hw in Hold. destruct Hold.
Qed.

Lemma hidden_never_listed_witness : strings.HasPrefix "docs" "." = false.
Proof.
  apply (@hidden_never_listed (treeEnv "/srv/www" specTree) (get "") "." start
           "docs").
  - reflexivity.
  - vm_compute. do 7 right. left. reflexivity.
Defined.

(** What [handleServe] leaves behind when the file server is the next
    handler, whatever the surroundings answer: the package-level
    variables are as before; the log has grown by nothing, or by the
    one line of a failed template; the first new call is the
    [os.Stat] of the cleaned path; and the file server is called only
    for what [os.Stat] finds and is no directory. *)
Lemma handleServe_history (root : string) (e : Env) (r : Request) (st : State) :
  exists rest cs,
    vars (final (handleServe (http_FileServer root) e r st)) = vars st
    /\ stdlog (final (handleServe (http_FileServer root) e r st))
       = (stdlog st ++ rest)%list
    /\ (rest = [] \/ rest = ["write error"])
    /\ calls (final (handleServe (http_FileServer root) e r st))
       = (calls st ++ Stat (filepath.Clean (URL_Path r)) :: cs)%list
    /\ (forall root' r', In (FileServer root' r') cs ->
          exists info,
            stat e (List.length (calls st)) (filepath.Clean (URL_Path r))
            = inr info /\ IsDir info = false).
Proof.
  remember (handleServe (http_FileServer root) e r st) as o eqn:Ho.
  unfold handleServe, bind in Ho. rewrite os_Stat_run in Ho.
  set (path := filepath.Clean (URL_Path r)) in *.
  set (st0 := setCalls st (calls st ++ [Stat path]) (w st)) in *.
  destruct (stat e (List.length (calls st)) path) as [err|info].
  - destruct (os_IsNotExist err) eqn:Herr; cbn [fst snd] in Ho;
      rewrite ?Herr in Ho.
    + (* 404 *)
      unfold http_NotFound in Ho.
      destruct (http_Error_same e "404 page not found" 404 st0)
        as (st1 & Hrun & (Hv & Hl & Hc) & _).
      rewrite Hrun in Ho. subst o. exists [], []. cbn [final].
      rewrite Hv, Hl, Hc. unfold st0. cbn [setCalls vars stdlog calls].
      rewrite app_nil_r. repeat split; auto. intros ? ? [].
    + (* panic *)
      subst o. exists [], []. cbn. rewrite app_nil_r. repeat split; auto.
      intros ? ? [].
  - cbn [info_IsDir] in Ho. unfold ret in Ho.
    destruct (IsDir info) eqn:Hdir.
    + rewrite ioutil_ReadDir_run in Ho.
      match type of Ho with context [handleDirectory e r path ?s] =>
        destruct (handleDirectory_history e r path s)
          as (st' & rest & cs & Hrun & Hv & Hl & Hrest & Hc & Hcs & _)
      end.
      rewrite Hrun in Ho. subst o.
      exists rest, (ReadDir path :: ReadDir path :: cs).
      cbn [final]. rewrite Hv, Hl, Hc. unfold st0.
      cbn [setCalls vars stdlog calls]. rewrite <- !app_assoc.
      repeat split; auto.
      intros root' r' [Hin|[Hin|Hin]]; try discriminate.
      destruct Hcs as [->|[data ->]]; [destruct Hin|].
      destruct Hin as [Hin|[]]. discriminate.
    + subst o. exists [], [FileServer root r]. cbn.
      rewrite app_nil_r, <- app_assoc.
      repeat split; auto. intros root' r' _. now exists info.
Qed.


Lemma handleDirectory_status_codes
  (e : Env) (r : Request) (path : string) (st : State) :
  w st = fresh ->
  In (status (w (final (handleDirectory e r path st)))) [Some 200; Some 500].
Proof.
  intros Hw.
  destruct (readdir e (List.length (calls st)) path) as [err|contents] eqn:Hr.
  - unfold handleDirectory, bind. rewrite ioutil_ReadDir_run, Hr.
    rewrite http_Error_fresh by exact Hw. cbn. auto.
  - rewrite (@handleDirectory_status e r path st contents Hr);
      [cbn; auto | now rewrite Hw].
Qed.

(** X17.  When what [os.Stat] finds is a directory, or when it finds
    nothing, [handleServe] answers by itself: it panics or leaves one
    of the statuses 200, 404 and 500, and it does not call the file
    server. *)
Theorem handleServe_answers
  (root : string) (e : Env) (r : Request) (st : State) :
  w st = fresh ->
  (forall info,
     stat e (List.length (calls st)) (filepath.Clean (URL_Path r)) = inr info ->
     IsDir info = true) ->
  (panicked (handleServe (http_FileServer root) e r st) = true
   \/ In (status (w (final (handleServe (http_FileServer root) e r st))))
         [Some 200; Some 404; Some 500])
  /\ exists cs,
      calls (final (handleServe (http_FileServer root) e r st))
      = (calls st ++ cs)%list
      /\ forall root' r', ~ In (FileServer root' r') cs.
Proof.
  intros Hw Hdir. split.
  - remember (handleServe (http_FileServer root) e r st) as o eqn:Ho.
    unfold handleServe, bind in Ho. rewrite os_Stat_run in Ho.
    set (path := filepath.Clean (URL_Path r)) in *.
    destruct (stat e (List.length (calls st)) path) as [err|info] eqn:Hstat.
    + destruct (os_IsNotExist err) eqn:Herr; cbn [fst snd] in Ho;
        rewrite ?Herr in Ho.
      * unfold http_NotFound in Ho. rewrite http_Error_fresh in Ho by exact Hw.
        subst o. cbn. auto.
      * subst o. cbn. auto.
    + cbn [info_IsDir] in Ho. unfold ret in Ho.
      rewrite (Hdir info eq_refl) in Ho.
      rewrite ioutil_ReadDir_run in Ho.
      match type of Ho with context [handleDirectory e r path ?s] =>
        pose proof (@handleDirectory_status_codes e r path s Hw) as Hcodes;
        destruct (handleDirectory_history e r path s)
          as (st' & rest & cs & Hrun & _)
      end.
      rewrite Hrun in Ho, Hcodes. subst o. cbn [panicked final] in *. right.
      destruct Hcodes as [H|[H|[]]]; rewrite <- H; cbn; auto.
  - destruct (handleServe_history root e r st)
      as (rest & cs & _ & _ & _ & Hc & Hfs).
    exists (Stat (filepath.Clean (URL_Path r)) :: cs). split; [exact Hc|].
    intros root' r' [Hin|Hin]; [discriminate|].
    destruct (Hfs root' r' Hin) as (info & Hstat & Hfile).
    rewrite (Hdir info Hstat) in Hfile. discriminate.
Qed.

Lemma handleServe_answers_witness :
  In (status (w (final (handleServe (http_FileServer "/srv/www")
                          (treeEnv "/srv/www" siteTree) (get "private") start))))
     [Some 200; Some 404; Some 500].
Proof.
  destruct (@handleServe_answers "/srv/www" (treeEnv "/srv/www" siteTree)
              (get "private") start) as [[Hp|Hs] _].
  - reflexivity.
  - intros info Hstat. vm_compute in Hstat. inversion Hstat. reflexivity.
  - vm_compute in Hp. discriminate.
  - exact Hs.
Defined.

(** X18.  A separator at the end of the URL path makes no difference
    to a request that [handleServe] answers by itself: for a path that
    [os.Stat] does not find, or finds to be a directory, the request
    with the separator is served like the request without it. *)
Theorem handleServe_trailing_separator
  (next : Handler) (e : Env) (p a : string) (st : State) :
  p <> "" ->
  (forall info,
     stat e (List.length (calls st)) (filepath.Clean p) = inr info ->
     IsDir info = true) ->
  handleServe next e {| URL_Path := p ++ "/"; RemoteAddr := a |} st
  = handleServe next e {| URL_Path := p; RemoteAddr := a |} st.
Proof.
  intros Hp Hdir. unfold handleServe. cbn [URL_Path].
  rewrite (Clean_trailing_separator Hp). unfold bind.
  rewrite os_Stat_run.
  destruct (stat e (List.length (calls st)) (filepath.Clean p))
    as [err|info] eqn:Hstat.
  - destruct (os_IsNotExist err); reflexivity.
  - cbn [info_IsDir]. unfold ret. rewrite (Hdir info eq_refl). reflexivity.
Qed.

Lemma handleServe_trailing_separator_witness :
  handleServe (http_FileServer "/srv/www") (treeEnv "/srv/www" specTree)
              {| URL_Path := "docs" ++ "/"; RemoteAddr := "127.0.0.1:50000" |}
              start
  = handleServe (http_FileServer "/srv/www") (treeEnv "/srv/www" specTree)
                {| URL_Path := "docs"; RemoteAddr := "127.0.0.1:50000" |}
                start.
Proof.
  apply handleServe_trailing_separator.
  - discriminate.
  - intros info Hstat. vm_compute in Hstat. inversion Hstat. reflexivity.
Defined.

(** X19.  [abs] takes the root off as a prefix of bytes, not of path
    elements: for a clean absolute root and a clean directory that
    begins with the bytes of the root, what [abs] cleans and prints is
    the rest of the bytes behind a separator, also when the directory
    is a neighbour of the root and not under it. *)
Theorem abs_strips_bytes (wd : option string) (root t : string) :
  filepath.IsAbs root = true ->
  filepath.Clean root = root ->
  filepath.Clean (root ++ t) = root ++ t ->
  abs wd (root ++ t) root = fmt.Sprintf (filepath.Clean ("/" ++ t)).
Proof.
  intros Habs Hroot Hdir.
  assert (Hne : root <> "") by (intros ->; discriminate).
  unfold abs, filepath.Abs.
  rewrite (IsAbs_append t Hne), Habs. cbn [fst].
  now rewrite Hroot, Hdir, TrimPrefix_append.
Qed.

Lemma abs_strips_bytes_witness : abs None ("/srv" ++ "2/x") "/srv" = "/2/x".
Proof.
  apply (@abs_strips_bytes None "/srv" "2/x"); reflexivity.
Defined.

